(** * The todo service of [src/app.js]: store, handlers, correlation ids

    A shallow embedding of the Express application in [src/app.js]:
    the module-level store ([todos], [nextId]), the five todo routes, the
    fallback handlers and the correlation-id middleware, followed by the
    properties of the service.

    Modelling conventions.
    - A JavaScript string is the list of its UTF-16 code units.
    - A value of [req.body] is a parsed JSON value; [undefined] is the
      [None] of a property lookup.
    - The counter [nextId] and the ids are mathematical integers: the
      JavaScript numbers that hold them are exact on integers below 2^53,
      a bound that the counter, incremented once per created todo, is taken
      never to reach.  For the same reason [parseInt] returns the integer
      it reads without rounding it to a double.
    - [Date.now()], [Math.random()] and [new Date().toISOString()] are
      read from an environment record that comes with each request.
    - The calls to the logger and to the metrics registry do not touch the
      store nor the response, and are left out. *)

From Stdlib Require Import ZArith NArith String Ascii Decimal DecimalPos DecimalN.
From Stdlib Require Import Floats.SpecFloat.
From stdpp Require Import base numbers option list sorting.

Local Open Scope Z_scope.

(** ** JavaScript strings *)

Module Js.

Definition jsstring := list N.

(** An ASCII literal as a JavaScript string. *)
Definition lit (s : String.string) : jsstring :=
  N_of_ascii <$> list_ascii_of_string s.

(** WhiteSpace and LineTerminator code units of ECMAScript, the ones that
    [String.prototype.trim] and [parseInt] strip. *)
Definition is_white_space (c : N) : bool :=
  ((9 <=? c) && (c <=? 13) || (c =? 32) || (c =? 160) || (c =? 5760)
   || (8192 <=? c) && (c <=? 8202) || (c =? 8232) || (c =? 8233)
   || (c =? 8239) || (c =? 8287) || (c =? 12288) || (c =? 65279))%N.

Fixpoint trim_start (s : jsstring) : jsstring :=
  match s with
  | c :: s' => if is_white_space c then trim_start s' else s
  | [] => []
  end.

Definition trim_end (s : jsstring) : jsstring :=
  reverse (trim_start (reverse s)).

(** [s.trim()] *)
Definition trim (s : jsstring) : jsstring := trim_end (trim_start s).

(** A string made of white space only (the empty string included). *)
Definition blank (s : jsstring) : bool := forallb is_white_space s.

(** The value of a code unit as a digit: [0-9], [a-z] and [A-Z]. *)
Definition digit_value (c : N) : option Z :=
  if ((48 <=? c) && (c <=? 57))%N then Some (Z.of_N c - 48)
  else if ((97 <=? c) && (c <=? 122))%N then Some (Z.of_N c - 87)
  else if ((65 <=? c) && (c <=? 90))%N then Some (Z.of_N c - 55)
  else None.

(** The longest prefix of radix-[R] digits, read as an integer; [acc] is
    [None] as long as no digit has been read. *)
Fixpoint parse_digits (R : Z) (s : jsstring) (acc : option Z) : option Z :=
  match s with
  | [] => acc
  | c :: s' =>
      match digit_value c with
      | Some d =>
          if d <? R then parse_digits R s' (Some (R * default 0 acc + d))
          else acc
      | None => acc
      end
  end.

(** [parseInt(s)] with no radix argument; [None] is [NaN]. *)
Definition parseInt (s : jsstring) : option Z :=
  let s0 := trim_start s in
  let '(sign, s1) :=
    match s0 with
    | 45%N :: r => (-1, r)
    | 43%N :: r => (1, r)
    | _ => (1, s0)
    end in
  let '(R, s2) :=
    match s1 with
    | 48%N :: 120%N :: r => (16, r)
    | 48%N :: 88%N :: r => (16, r)
    | _ => (10, s1)
    end in
  Z.mul sign <$> parse_digits R s2 None.

(** Decimal digits of a natural number, as [String(n)] prints them. *)
Fixpoint uint_units (d : Decimal.uint) : jsstring :=
  match d with
  | Nil => []
  | D0 d => 48%N :: uint_units d
  | D1 d => 49%N :: uint_units d
  | D2 d => 50%N :: uint_units d
  | D3 d => 51%N :: uint_units d
  | D4 d => 52%N :: uint_units d
  | D5 d => 53%N :: uint_units d
  | D6 d => 54%N :: uint_units d
  | D7 d => 55%N :: uint_units d
  | D8 d => 56%N :: uint_units d
  | D9 d => 57%N :: uint_units d
  end.

(** [String(z)] for an integer [z] (below 10^21, where JavaScript prints
    every digit). *)
Definition number_to_string (z : Z) : jsstring :=
  match z with
  | Zneg p => 45%N :: uint_units (Pos.to_uint p)
  | _ => uint_units (N.to_uint (Z.to_N z))
  end.

(** A base-36 digit as [Number.prototype.toString(36)] prints it. *)
Definition digit36 (d : nat) : N :=
  let d := (d mod 36)%nat in
  if (d <? 10)%nat then (48 + N.of_nat d)%N else (87 + N.of_nat d)%N.

(** [str.substr(start, len)] for non-negative arguments. *)
Definition substr (start len : nat) (s : jsstring) : jsstring :=
  take len (drop start s).

(** *** Parsed JSON values *)

#[local] Set Warnings "-register-all".

Inductive value :=
| VNull
| VBool (b : bool)
| VNum (x : spec_float)
| VStr (s : jsstring)
| VArr (elems : list value)
| VObj (fields : list (jsstring * value)).

(** ToBoolean: what [!v] negates.  Objects and arrays are truthy. *)
Definition to_boolean (v : value) : bool :=
  match v with
  | VNull => false
  | VBool b => b
  | VNum (S754_zero _) | VNum S754_nan => false
  | VNum _ => true
  | VStr s => match s with [] => false | _ => true end
  | VArr _ | VObj _ => true
  end.

Fixpoint assoc (k : jsstring) (fields : list (jsstring * value)) : option value :=
  match fields with
  | [] => None
  | (k', v) :: rest => if decide (k' = k) then Some v else assoc k rest
  end.

(** The property [k] of a parsed JSON value, for a name [k] that is not an
    array index nor a built-in property: [None] is [undefined]. *)
Definition get_prop (v : value) (k : jsstring) : option value :=
  match v with
  | VObj fields => assoc k fields
  | _ => None
  end.

End Js.

Import Js.

(** ** The store and its records *)

(** A todo as [app.post('/todos')] builds it.  [title] and [completed] are
    values, since [app.put('/todos/:id')] stores whatever the body holds. *)
Record todo := Todo {
  id : Z;
  title : value;
  completed : value;
  createdAt : jsstring
}.

(** [let todos = []; let nextId = 1;] *)
Record store := Store {
  todos : list todo;
  nextId : Z
}.

Definition init : store := {| todos := []; nextId := 1 |}.

(** ** Requests, environment and responses *)

(** What a request reads from the world. *)
Record env := Env {
  now : Z;                 (* Date.now() *)
  random : list nat;       (* base-36 fraction digits of Math.random() *)
  isoString : jsstring     (* new Date().toISOString() *)
}.

(** A request as the router dispatches it: [seg] is [req.params.id] and
    [body] is [req.body], which [express.json()] leaves an object or an
    array. *)
Inductive route :=
| GET_health
| GET_metrics
| GET_todos
| GET_todo (seg : jsstring)
| POST_todos (body : value)
| PUT_todo (seg : jsstring) (body : value)
| DELETE_todo (seg : jsstring)
| Unmatched.

(** [body_rejected] tells that [express.json()], the first middleware of
    the application, could not read the payload (malformed JSON, say) and
    passed an error to [next]: Express then skips every middleware and
    route up to the error handler. *)
Record request := Request {
  x_correlation_id : option jsstring;   (* req.headers['x-correlation-id'] *)
  body_rejected : bool;
  target : route
}.

(** The argument of [res.json] (or [res.end] for the metrics). *)
Inductive payload :=
| PHealth (status : String.string) (timestamp : jsstring)
| PMetrics
| PList (items : list todo) (count : nat)
| PTodo (t : todo)
| PDeleted (message : String.string) (t : todo)
| PError (error : String.string).

Record response := Response {
  correlation_header : option jsstring; (* X-Correlation-ID, when set *)
  status : Z;
  body : payload
}.

(** ** The correlation-id middleware *)

(** [Math.random().toString(36)]: ["0"] for 0, else ["0."] and the digits. *)
Definition random_to_string36 (ds : list nat) : jsstring :=
  match ds with
  | [] => [48%N]
  | _ => 48%N :: 46%N :: (digit36 <$> ds)
  end.

(** [Math.random().toString(36).substr(2, 9)] *)
Definition random_suffix (e : env) : jsstring :=
  substr 2 9 (random_to_string36 (random e)).

(** [`${Date.now()}-${Math.random().toString(36).substr(2, 9)}`] *)
Definition generated_id (e : env) : jsstring :=
  number_to_string (now e) ++ 45%N :: random_suffix e.

(** [req.headers['x-correlation-id'] || generated]: an empty header value
    is falsy. *)
Definition correlationId (rq : request) (e : env) : jsstring :=
  match x_correlation_id rq with
  | Some (c :: h) => c :: h
  | _ => generated_id e
  end.

(** ** The handlers *)

Definition not_found : Z * payload := (404, PError "Todo not found").

(** [t => t.id === parseInt(req.params.id)]: never true when [parseInt]
    yields [NaN]. *)
Definition has_id (n : option Z) (t : todo) : Prop := Some (id t) = n.

#[global] Instance has_id_dec n t : Decision (has_id n t).
Proof. unfold has_id. apply _. Defined.

(** [todos.find(...)] and [todos.findIndex(...)] at once: the first match
    and its index. *)
Definition find_todo (seg : jsstring) (l : list todo) : option (nat * todo) :=
  list_find (has_id (parseInt seg)) l.

(** [app.get('/todos')] *)
Definition get_todos (st : store) : Z * payload * store :=
  (200, PList (todos st) (length (todos st)), st).

(** [app.get('/todos/:id')] *)
Definition get_todo (seg : jsstring) (st : store) : Z * payload * store :=
  match find_todo seg (todos st) with
  | None => (not_found, st)
  | Some (_, t) => (200, PTodo t, st)
  end.

(** The final error handler, reached when a handler throws. *)
Definition internal_error : Z * payload := (500, PError "Internal server error").

Definition title_required : Z * payload := (400, PError "Title is required").

(** [app.post('/todos')].  A truthy title that is not a string has no
    [trim] method: the call throws before the store is touched. *)
Definition post_todos (body : value) (e : env) (st : store) : Z * payload * store :=
  match get_prop body (lit "title") with
  | None => (title_required, st)
  | Some v =>
      if negb (to_boolean v) then (title_required, st)
      else match v with
           | VStr s =>
               match trim s with
               | [] => (title_required, st)
               | _ =>
                   let t := {| id := nextId st; title := VStr (trim s);
                               completed := VBool false;
                               createdAt := isoString e |} in
                   (201, PTodo t,
                    {| todos := todos st ++ [t]; nextId := nextId st + 1 |})
               end
           | _ => (internal_error, st)
           end
  end.

(** The assignments of [app.put('/todos/:id')] to the record found. *)
Definition assign (body : value) (t : todo) : todo :=
  {| id := id t;
     title := default (title t) (get_prop body (lit "title"));
     completed := default (completed t) (get_prop body (lit "completed"));
     createdAt := createdAt t |}.

(** [app.put('/todos/:id')]: the record is updated in place in the array. *)
Definition put_todo (seg : jsstring) (body : value) (st : store) : Z * payload * store :=
  match find_todo seg (todos st) with
  | None => (not_found, st)
  | Some (i, t) =>
      (200, PTodo (assign body t),
       {| todos := <[i := assign body t]> (todos st); nextId := nextId st |})
  end.

(** [app.delete('/todos/:id')]: [todos.splice(index, 1)]. *)
Definition delete_todo (seg : jsstring) (st : store) : Z * payload * store :=
  match find_todo seg (todos st) with
  | None => (not_found, st)
  | Some (i, t) =>
      (200, PDeleted "Todo deleted successfully" t,
       {| todos := delete i (todos st); nextId := nextId st |})
  end.

Definition handle (r : route) (e : env) (st : store) : Z * payload * store :=
  match r with
  | GET_health => (200, PHealth "healthy" (isoString e), st)
  | GET_metrics => (200, PMetrics, st)
  | GET_todos => get_todos st
  | GET_todo seg => get_todo seg st
  | POST_todos body => post_todos body e st
  | PUT_todo seg body => put_todo seg body st
  | DELETE_todo seg => delete_todo seg st
  | Unmatched => (404, PError "Route not found", st)
  end.

(** One request through [express.json()], the correlation middleware and
    the router.  The middleware sets the header before any handler runs;
    a request that [express.json()] rejects never reaches it. *)
Definition app (rq : request) (e : env) (st : store) : response * store :=
  if body_rejected rq then
    ({| correlation_header := None; status := internal_error.1;
        body := internal_error.2 |}, st)
  else
    let '(code, pl, st') := handle (target rq) e st in
    ({| correlation_header := Some (correlationId rq e); status := code;
        body := pl |}, st').

(** ** Runs of the service *)

(** The requests of a process lifetime, served one after the other from
    the store [st]: the responses in order, and the final store. *)
Fixpoint run (tr : list (request * env)) (st : store) : list response * store :=
  match tr with
  | [] => ([], st)
  | (rq, e) :: tr' =>
      let '(rs, st') := app rq e st in
      let '(rss, st'') := run tr' st' in
      (rs :: rss, st'')
  end.

Definition reachable (st : store) : Prop := ∃ tr, (run tr init).2 = st.

(** The id that a response issues: the one of the record of a 201. *)
Definition issued_by (r : response) : option Z :=
  match body r with
  | PTodo t => if decide (status r = 201) then Some (id t) else None
  | _ => None
  end.

(** The id that a response reports deleted. *)
Definition deleted_by (r : response) : option Z :=
  match body r with
  | PDeleted _ t => Some (id t)
  | _ => None
  end.

Definition issued (rs : list response) : list Z := omap issued_by rs.
Definition deleted (rs : list response) : list Z := omap deleted_by rs.

Definition ids (st : store) : list Z := id <$> todos st.

(** What one request can do to the store, seen from its response [r]:
    nothing; append the record of a 201, which takes the counter as its id;
    replace a record by one of the same id; remove the record reported. *)
Inductive transition (st : store) : response → store → Prop :=
| T_quiet r :
    issued_by r = None → deleted_by r = None → transition st r st
| T_created r t :
    status r = 201 → body r = PTodo t → id t = nextId st →
    transition st r {| todos := todos st ++ [t]; nextId := nextId st + 1 |}
| T_updated r i t t' :
    issued_by r = None → deleted_by r = None →
    todos st !! i = Some t → id t' = id t →
    transition st r {| todos := <[i := t']> (todos st); nextId := nextId st |}
| T_deleted r i t msg :
    body r = PDeleted msg t → todos st !! i = Some t →
    transition st r {| todos := delete i (todos st); nextId := nextId st |}.

(** What holds of the responses [rs] given so far and of the store [st]
    they leave: the store holds the records issued and not deleted, in the
    order of their creation; ids were issued in increasing order, below the
    counter; only issued ids were deleted. *)
Definition invariant (rs : list response) (st : store) : Prop :=
  ids st = filter (λ i, i ∉ deleted rs) (issued rs)
  ∧ StronglySorted Z.lt (issued rs)
  ∧ Forall (λ i, i < nextId st) (issued rs)
  ∧ deleted rs ⊆ issued rs.

(** A title as the data model wants it: a string that is neither empty nor
    made of white space only. *)
Definition valid_title (v : value) : Prop :=
  ∃ s, v = VStr s ∧ s ≠ [] ∧ blank s = false.

(** *** Requests used in the examples *)

Definition json_title (s : String.string) : value :=
  VObj [(lit "title", VStr (lit s))].

Definition plain (r : route) : request :=
  {| x_correlation_id := None; body_rejected := false; target := r |}.

Definition env0 : env :=
  {| now := 1700000000000; random := [18%nat];
     isoString := lit "2023-11-14T22:13:20.000Z" |}.

Definition post (s : String.string) : request * env :=
  (plain (POST_todos (json_title s)), env0).

(** Two todos created, the second with a padded title. *)
Definition two_posts : list (request * env) :=
  [post "Buy milk"; post "  Trimmed  "].

Definition store2 : store := (run two_posts init).2.

Definition milk : todo :=
  {| id := 1; title := VStr (lit "Buy milk"); completed := VBool false;
     createdAt := isoString env0 |}.

Definition trimmed : todo :=
  {| id := 2; title := VStr (lit "Trimmed"); completed := VBool false;
     createdAt := isoString env0 |}.

Definition json_completed (b : bool) : value :=
  VObj [(lit "completed", VBool b)].

(** Two readings of the world in the same millisecond, with draws of
    [Math.random()] that part at the tenth base-36 digit only. *)
Definition envA : env :=
  {| now := 1700000000000;
     random := [1; 2; 3; 4; 5; 6; 7; 8; 9; 10]%nat;
     isoString := lit "2023-11-14T22:13:20.000Z" |}.

Definition envB : env :=
  {| now := 1700000000000;
     random := [1; 2; 3; 4; 5; 6; 7; 8; 9; 20]%nat;
     isoString := lit "2023-11-14T22:13:20.000Z" |}.

Definition with_header (h : String.string) (r : route) : request :=
  {| x_correlation_id := Some (lit h); body_rejected := false; target := r |}.

(** *** Path segments *)

(** A code unit that is one of the decimal digits. *)
Definition is_decimal_digit (c : N) : bool := ((48 <=? c) && (c <=? 57))%N.

(** What may follow the digits of an id in a path segment for [parseInt] to
    stop there: nothing, or a code unit that is not a decimal digit. *)
Definition decimal_stop (rest : jsstring) : Prop :=
  match rest with
  | [] => True
  | c :: _ => is_decimal_digit c = false
  end.

(** *** Bookkeeping of the runs *)

(** What holds, besides [invariant], of the responses [rs] given so far and
    of the store [st] they leave: the ids issued are 1, 2, ... up to the
    counter; the collection holds one record per id issued and not
    deleted; no id was deleted twice. *)
Definition accounting (rs : list response) (st : store) : Prop :=
  issued rs = seqZ 1 (nextId st - 1)
  ∧ 1 ≤ nextId st
  ∧ (length (todos st) + length (deleted rs) = length (issued rs))%nat
  ∧ NoDup (deleted rs).

(** * Properties *)

Example trim_Trimmed : trim (lit "  Trimmed  ") = lit "Trimmed".
Proof. reflexivity. Qed.

Example parseInt_99999 : parseInt (lit "99999") = Some 99999.
Proof. reflexivity. Qed.

Example parseInt_abc : parseInt (lit "abc") = None.
Proof. reflexivity. Qed.

Example parseInt_12px : parseInt (lit " -12px") = Some (-12).
Proof. reflexivity. Qed.

Example parseInt_0x1f : parseInt (lit "0x1f") = Some 31.
Proof. reflexivity. Qed.

Example parseInt_0x : parseInt (lit "0x") = None.
Proof. reflexivity. Qed.

Example number_to_string_1700 : number_to_string 1700 = lit "1700".
Proof. reflexivity. Qed.

(** ** Strings *)

Section Trim.

Lemma trim_start_nil s : trim_start s = [] ↔ blank s = true.
Proof.
  induction s as [|c s IH]; simpl; [done|].
  destruct (is_white_space c); simpl; [done|]. split; discriminate.
Qed.

Lemma blank_trim_start s : blank (trim_start s) = blank s.
Proof.
  induction s as [|c s IH]; simpl; [done|].
  destruct (is_white_space c) eqn:Hc; simpl; [done|]. by rewrite Hc.
Qed.

Lemma blank_app s1 s2 : blank (s1 ++ s2) = blank s1 && blank s2.
Proof. apply forallb_app. Qed.

Lemma blank_reverse s : blank (reverse s) = blank s.
Proof.
  induction s as [|c s IH]; [done|].
  rewrite reverse_cons, blank_app, IH. simpl.
  rewrite andb_true_r. apply andb_comm.
Qed.

Lemma reverse_nil_inv (s : jsstring) : reverse s = [] → s = [].
Proof. intros H. apply (f_equal reverse) in H. by rewrite reverse_involutive in H. Qed.

Lemma trim_end_nil s : trim_end s = [] ↔ blank s = true.
Proof.
  unfold trim_end. rewrite <- blank_reverse, <- trim_start_nil.
  split; [apply reverse_nil_inv | by intros ->].
Qed.

Lemma blank_trim_end s : blank (trim_end s) = blank s.
Proof.
  unfold trim_end. by rewrite blank_reverse, blank_trim_start, blank_reverse.
Qed.

(** [s.trim() === ''] exactly when [s] is made of white space only. *)
Lemma trim_nil s : trim s = [] ↔ blank s = true.
Proof. unfold trim. by rewrite trim_end_nil, blank_trim_start. Qed.

Lemma blank_trim s : blank (trim s) = blank s.
Proof. unfold trim. by rewrite blank_trim_end, blank_trim_start. Qed.

Lemma trim_not_blank s : trim s ≠ [] → blank (trim s) = false.
Proof.
  intros H. rewrite blank_trim. destruct (blank s) eqn:Hb; [|done].
  by apply trim_nil in Hb.
Qed.

End Trim.

(** ** Looking a record up by the path segment *)

Section Find.

Implicit Types (l : list todo) (t : todo) (seg : jsstring).

Lemma find_todo_NaN seg l : parseInt seg = None → find_todo seg l = None.
Proof.
  intros H. unfold find_todo. rewrite H. apply list_find_None.
  apply Forall_forall. intros t _. unfold has_id. discriminate.
Qed.

Lemma find_todo_absent seg n l :
  parseInt seg = Some n → (∀ t, t ∈ l → id t ≠ n) → find_todo seg l = None.
Proof.
  intros H Hn. unfold find_todo. rewrite H. apply list_find_None.
  apply Forall_forall. intros t Ht. unfold has_id. intros [=]. by eapply Hn.
Qed.

Lemma find_todo_Some seg l i t :
  find_todo seg l = Some (i, t) → l !! i = Some t ∧ parseInt seg = Some (id t).
Proof.
  unfold find_todo. intros (? & Hid & _)%list_find_Some. by rewrite <- Hid.
Qed.

(** With ids that are pairwise distinct, the record found is the record
    that carries the id. *)
Lemma find_todo_unique seg l t :
  NoDup (id <$> l) → t ∈ l → parseInt seg = Some (id t) →
  ∃ i, find_todo seg l = Some (i, t).
Proof.
  intros Hnd Ht Hseg.
  destruct (list_find_elem_of (has_id (parseInt seg)) l t Ht) as [[i u] Hf].
  { unfold has_id. by rewrite Hseg. }
  exists i. fold (find_todo seg l) in Hf. rewrite Hf.
  apply find_todo_Some in Hf as [Hi Hu].
  apply list_elem_of_lookup in Ht as [j Hj].
  assert (i = j) as ->; [|congruence].
  apply (NoDup_lookup (id <$> l) i j (id t)); [done| |].
  - rewrite list_lookup_fmap, Hi. simpl. congruence.
  - by rewrite list_lookup_fmap, Hj.
Qed.

End Find.

(** ** Lists of ids *)

Section Keys.

Context {A B : Type} `{EqDecision B} (f : A → B).

Lemma filter_all (P : A → Prop) `{∀ x, Decision (P x)} (l : list A) :
  (∀ x, x ∈ l → P x) → filter P l = l.
Proof.
  induction l as [|y l IH]; intros Hall; [done|].
  rewrite filter_cons_True by (apply Hall; left).
  f_equal. apply IH. intros x Hx. apply Hall. by right.
Qed.

(** Removing the element at an index of a list whose keys are pairwise
    distinct is filtering its key out: what [splice(index, 1)] leaves. *)
Lemma delete_filter_key (l : list A) i x :
  NoDup (f <$> l) → l !! i = Some x →
  delete i l = filter (λ y, f y ≠ f x) l.
Proof.
  revert i. induction l as [|y l IH]; intros i Hnd Hi; [done|].
  rewrite fmap_cons in Hnd. apply NoDup_cons in Hnd as [Hy Hnd].
  destruct i as [|i]; simplify_eq/=.
  - rewrite filter_cons_False by (intros ?; done).
    symmetry. apply filter_all. intros z Hz Heq. apply Hy.
    rewrite <- Heq. by apply list_elem_of_fmap_2.
  - rewrite filter_cons_True; [by rewrite <- (IH i Hnd Hi)|].
    intros Heq. apply Hy. rewrite Heq.
    apply list_elem_of_fmap_2. by eapply list_elem_of_lookup_2.
Qed.

End Keys.

Section Ids.

Implicit Types (l : list Z).

Lemma StronglySorted_lt_NoDup l : StronglySorted Z.lt l → NoDup l.
Proof.
  induction 1 as [|x l _ IH Hx]; constructor; [|done].
  intros Hin. rewrite Forall_forall in Hx. specialize (Hx x Hin). lia.
Qed.

Lemma StronglySorted_snoc_lt l n :
  StronglySorted Z.lt l → Forall (λ i, i < n) l → StronglySorted Z.lt (l ++ [n]).
Proof.
  intros Hs Hn. apply StronglySorted_app_2; [|done|repeat constructor].
  intros x1 x2 H1 ->%list_elem_of_singleton.
  rewrite Forall_forall in Hn. by apply Hn.
Qed.

Lemma delete_NoDup_filter l i d :
  NoDup l → l !! i = Some d → delete i l = filter (λ x, x ≠ d) l.
Proof.
  intros Hnd Hi. apply (delete_filter_key (λ x : Z, x)); [|done].
  by rewrite list_fmap_id.
Qed.

End Ids.

(** ** The invariant of the runs *)

Section Invariant.

Implicit Types (st : store) (r : response) (rs : list response).

Lemma issued_snoc rs r :
  issued (rs ++ [r]) = issued rs ++ from_option (λ i, [i]) [] (issued_by r).
Proof. unfold issued. rewrite omap_app. simpl. by destruct (issued_by r). Qed.

Lemma deleted_snoc rs r :
  deleted (rs ++ [r]) = deleted rs ++ from_option (λ i, [i]) [] (deleted_by r).
Proof. unfold deleted. rewrite omap_app. simpl. by destruct (deleted_by r). Qed.

Lemma invariant_init : invariant [] init.
Proof. repeat split; try constructor. by intros x Hx. Qed.

Lemma invariant_NoDup rs st : invariant rs st → NoDup (ids st).
Proof.
  intros (-> & Hs & _). by apply NoDup_filter, StronglySorted_lt_NoDup.
Qed.

Lemma invariant_ids_issued rs st i : invariant rs st → i ∈ ids st → i ∈ issued rs.
Proof. intros (-> & _) Hi. by apply list_elem_of_filter in Hi as [_ ?]. Qed.

Lemma handle_transition rt rq e st :
  let '(code, pl, st') := handle rt e st in
  transition st {| correlation_header := Some (correlationId rq e);
                   status := code; body := pl |} st'.
Proof.
  destruct rt as [| | |seg|b|seg b|seg|]; simpl;
    try (by apply T_quiet).
  - unfold get_todo. destruct (find_todo seg (todos st)) as [[i t]|];
      by apply T_quiet.
  - unfold post_todos. destruct (get_prop b (lit "title")) as [v|];
      [|by apply T_quiet].
    destruct (negb (to_boolean v)); [by apply T_quiet|].
    destruct v as [|?|?|s|?|?]; try (by apply T_quiet).
    destruct (trim s) eqn:Ht; [by apply T_quiet|].
    by eapply T_created.
  - unfold put_todo. destruct (find_todo seg (todos st)) as [[i t]|] eqn:Hf;
      [|by apply T_quiet].
    apply find_todo_Some in Hf as [Hi _]. by eapply T_updated.
  - unfold delete_todo. destruct (find_todo seg (todos st)) as [[i t]|] eqn:Hf;
      [|by apply T_quiet].
    apply find_todo_Some in Hf as [Hi _]. by eapply T_deleted.
Qed.

Lemma app_transition rq e st : transition st (app rq e st).1 (app rq e st).2.
Proof.
  unfold app. destruct (body_rejected rq); [by apply T_quiet|].
  pose proof (handle_transition (target rq) rq e st) as H.
  by destruct (handle (target rq) e st) as [[code pl] st'].
Qed.

Lemma transition_invariant rs st r st' :
  invariant rs st → transition st r st' → invariant (rs ++ [r]) st'.
Proof.
  intros Hinv Htr. pose proof (invariant_NoDup _ _ Hinv) as Hnd.
  pose proof (λ i, invariant_ids_issued _ _ i Hinv) as Hsub.
  destruct Hinv as (Hids & Hs & Hlt & Hdel).
  rewrite Forall_forall in Hlt.
  unfold invariant. rewrite issued_snoc, deleted_snoc.
  destruct Htr as [r Hi Hd|r t Hst Hb Hid|r i t t' Hi Hd Hl Hid|r i t msg Hb Hl].
  - rewrite Hi, Hd. simpl. by rewrite !app_nil_r, Forall_forall.
  - assert (issued_by r = Some (nextId st)) as ->.
    { unfold issued_by. rewrite Hb, Hid. by rewrite decide_True. }
    assert (deleted_by r = None) as ->.
    { unfold deleted_by. by rewrite Hb. }
    simpl. rewrite app_nil_r. split_and!.
    + unfold ids. simpl. rewrite fmap_app, filter_app. fold (ids st).
      rewrite Hids. f_equal. simpl. rewrite Hid, filter_cons_True; [done|].
      intros Hin%Hdel%Hlt. lia.
    + apply StronglySorted_snoc_lt; [done|by apply Forall_forall].
    + apply Forall_app. split; [|repeat constructor; lia].
      apply Forall_forall. intros x Hx%Hlt. lia.
    + intros x Hx. apply elem_of_app. left. by apply Hdel.
  - rewrite Hi, Hd. simpl. rewrite !app_nil_r. split_and!; [|done| |done].
    + unfold ids. simpl. rewrite list_fmap_insert, Hid, list_insert_id; [done|].
      by rewrite list_lookup_fmap, Hl.
    + by apply Forall_forall.
  - assert (issued_by r = None) as ->.
    { unfold issued_by. by rewrite Hb. }
    assert (deleted_by r = Some (id t)) as ->.
    { unfold deleted_by. by rewrite Hb. }
    simpl. rewrite app_nil_r.
    assert (ids st !! i = Some (id t)) as Hli.
    { unfold ids. by rewrite list_lookup_fmap, Hl. }
    split_and!; [|done|by apply Forall_forall|].
    + unfold ids. simpl. rewrite list_fmap_delete. fold (ids st).
      rewrite (delete_NoDup_filter _ _ _ Hnd Hli), Hids, list_filter_filter.
      apply list_filter_iff. intros x. rewrite elem_of_app, list_elem_of_singleton.
      tauto.
    + intros x [Hx| ->%list_elem_of_singleton]%elem_of_app; [by apply Hdel|].
      apply Hsub. by eapply list_elem_of_lookup_2.
Qed.

Lemma run_invariant tr : ∀ rs0 st,
  invariant rs0 st → invariant (rs0 ++ (run tr st).1) (run tr st).2.
Proof.
  induction tr as [|[rq e] tr IH]; intros rs0 st Hinv; simpl.
  - by rewrite app_nil_r.
  - pose proof (app_transition rq e st) as Htr.
    destruct (app rq e st) as [r st1]. simpl in Htr.
    specialize (IH (rs0 ++ [r]) st1 (transition_invariant _ _ _ _ Hinv Htr)).
    destruct (run tr st1) as [rss st2]. simpl in *.
    by rewrite <- app_assoc in IH.
Qed.

Lemma run_init_invariant tr : invariant (run tr init).1 (run tr init).2.
Proof. exact (run_invariant tr [] init invariant_init). Qed.

Lemma reachable_NoDup st : reachable st → NoDup (ids st).
Proof.
  intros [tr <-]. eapply invariant_NoDup, run_init_invariant.
Qed.

End Invariant.

(** ** Rejections: missing titles and unknown ids *)

(** C3.  In every store state, POST /todos with no title, or with a title
    that trimming leaves empty, answers 400 with the error
    "Title is required", and the store (collection and counter) is the
    same afterwards. *)
Theorem C3_post_without_title (body : value) (e : env) (st : store) :
  get_prop body (lit "title") = None
  ∨ (∃ s, get_prop body (lit "title") = Some (VStr s) ∧ trim s = []) →
  handle (POST_todos body) e st = (400, PError "Title is required", st).
Proof.
  simpl. unfold post_todos. intros [-> | (s & -> & Hs)]; [done|].
  destruct (negb (to_boolean (VStr s))); [done|]. by rewrite Hs.
Qed.

Lemma C3_witness_absent :
  get_prop (VObj []) (lit "title") = None ∧
  handle (POST_todos (VObj [])) env0 init
  = (400, PError "Title is required", init).
Proof.
  split; [reflexivity|].
  apply (C3_post_without_title (VObj []) env0 init). left. reflexivity.
Defined.

Example post_blank_title :
  handle (POST_todos (json_title "   ")) env0 init
  = (400, PError "Title is required", init).
Proof. reflexivity. Qed.

Example post_empty_title :
  handle (POST_todos (json_title "")) env0 init
  = (400, PError "Title is required", init).
Proof. reflexivity. Qed.

(** A truthy title that is not a string makes the handler throw: the
    error handler answers 500. *)
Example post_number_title :
  handle (POST_todos (VObj [(lit "title", VNum (S754_finite false 1 0))])) env0 init
  = (500, PError "Internal server error", init).
Proof. reflexivity. Qed.

(** C5.  For a path segment that reads as a number carried by no record of
    the store, GET, PUT and DELETE on /todos/:id each answer 404 with the
    error "Todo not found" and leave the store as it is. *)
Theorem C5_unknown_id (seg : jsstring) (n : Z) (body : value) (e : env) (st : store) :
  parseInt seg = Some n → n ∉ ids st →
  handle (GET_todo seg) e st = (404, PError "Todo not found", st)
  ∧ handle (PUT_todo seg body) e st = (404, PError "Todo not found", st)
  ∧ handle (DELETE_todo seg) e st = (404, PError "Todo not found", st).
Proof.
  intros Hseg Hn.
  assert (find_todo seg (todos st) = None) as Hf.
  { apply (find_todo_absent seg n); [done|]. intros t Ht <-. apply Hn.
    by apply list_elem_of_fmap_2. }
  simpl. unfold get_todo, put_todo, delete_todo. by rewrite Hf.
Qed.

(** C10.  For a path segment on which [parseInt] yields NaN, GET, PUT and
    DELETE on /todos/:id each answer 404 with the error "Todo not found"
    and leave the store as it is, whatever the store. *)
Theorem C10_non_numeric_id (seg : jsstring) (body : value) (e : env) (st : store) :
  parseInt seg = None →
  handle (GET_todo seg) e st = (404, PError "Todo not found", st)
  ∧ handle (PUT_todo seg body) e st = (404, PError "Todo not found", st)
  ∧ handle (DELETE_todo seg) e st = (404, PError "Todo not found", st).
Proof.
  intros Hseg. pose proof (find_todo_NaN seg (todos st) Hseg) as Hf.
  simpl. unfold get_todo, put_todo, delete_todo. by rewrite Hf.
Qed.

Example store2_eq : store2 = {| todos := [milk; trimmed]; nextId := 3 |}.
Proof. reflexivity. Qed.

Lemma reachable_store2 : reachable store2.
Proof. by exists two_posts. Qed.

Lemma C5_witness :
  parseInt (lit "99999") = Some 99999 ∧ (99999 ∉ ids store2) ∧
  handle (GET_todo (lit "99999")) env0 store2
  = (404, PError "Todo not found", store2)
  ∧ handle (PUT_todo (lit "99999") (json_completed true)) env0 store2
  = (404, PError "Todo not found", store2)
  ∧ handle (DELETE_todo (lit "99999")) env0 store2
  = (404, PError "Todo not found", store2).
Proof.
  assert (parseInt (lit "99999") = Some 99999) as H1 by reflexivity.
  assert (99999 ∉ ids store2) as H2 by (apply (bool_decide_unpack _); vm_compute; exact I).
  split; [exact H1|]. split; [exact H2|].
  exact (C5_unknown_id (lit "99999") 99999 (json_completed true) env0 store2 H1 H2).
Defined.

Lemma C10_witness :
  parseInt (lit "abc") = None ∧
  handle (GET_todo (lit "abc")) env0 store2
  = (404, PError "Todo not found", store2)
  ∧ handle (PUT_todo (lit "abc") (json_completed true)) env0 store2
  = (404, PError "Todo not found", store2)
  ∧ handle (DELETE_todo (lit "abc")) env0 store2
  = (404, PError "Todo not found", store2).
Proof.
  split; [reflexivity|].
  apply (C10_non_numeric_id (lit "abc") (json_completed true) env0 store2).
  reflexivity.
Defined.

(** ** Updates *)

(** C4.  For a record of the store, PUT /todos/:id answers 200 with the
    record in which exactly the fields that the body provides are
    replaced: a body without [title] leaves the title, a body without
    [completed] leaves the completion flag, and [id] and [createdAt] stay
    whatever the body.  In the store the new record takes the place of the
    old one; the other records and the counter are untouched. *)
Theorem C4_put_partial_update (st : store) (seg : jsstring) (body : value)
    (e : env) (t : todo) :
  reachable st → t ∈ todos st → parseInt seg = Some (id t) →
  ∃ i t' st',
    handle (PUT_todo seg body) e st = (200, PTodo t', st')
    ∧ id t' = id t ∧ createdAt t' = createdAt t
    ∧ (∀ v, get_prop body (lit "title") = Some v → title t' = v)
    ∧ (get_prop body (lit "title") = None → title t' = title t)
    ∧ (∀ v, get_prop body (lit "completed") = Some v → completed t' = v)
    ∧ (get_prop body (lit "completed") = None → completed t' = completed t)
    ∧ todos st !! i = Some t
    ∧ todos st' !! i = Some t'
    ∧ (∀ j, j ≠ i → todos st' !! j = todos st !! j)
    ∧ length (todos st') = length (todos st)
    ∧ nextId st' = nextId st.
Proof.
  intros Hr Ht Hseg.
  destruct (find_todo_unique seg (todos st) t (reachable_NoDup st Hr) Ht Hseg)
    as [i Hf].
  pose proof (find_todo_Some _ _ _ _ Hf) as [Hi _].
  exists i, (assign body t),
    (Store (<[i := assign body t]> (todos st)) (nextId st)).
  simpl. unfold put_todo. rewrite Hf. split_and!; try done.
  - by intros v ->.
  - by intros ->.
  - by intros v ->.
  - by intros ->.
  - apply list_lookup_insert_eq. by eapply lookup_lt_Some.
  - intros j Hj. by apply list_lookup_insert_ne.
  - apply length_insert.
Qed.

Lemma C4_witness_completed_only :
  reachable store2 ∧ trimmed ∈ todos store2
  ∧ parseInt (lit "2") = Some (id trimmed)
  ∧ ∃ i t' st',
    handle (PUT_todo (lit "2") (json_completed true)) env0 store2
    = (200, PTodo t', st')
    ∧ id t' = id trimmed ∧ createdAt t' = createdAt trimmed
    ∧ (∀ v, get_prop (json_completed true) (lit "title") = Some v → title t' = v)
    ∧ (get_prop (json_completed true) (lit "title") = None → title t' = title trimmed)
    ∧ (∀ v, get_prop (json_completed true) (lit "completed") = Some v → completed t' = v)
    ∧ (get_prop (json_completed true) (lit "completed") = None → completed t' = completed trimmed)
    ∧ todos store2 !! i = Some trimmed
    ∧ todos st' !! i = Some t'
    ∧ (∀ j, j ≠ i → todos st' !! j = todos store2 !! j)
    ∧ length (todos st') = length (todos store2)
    ∧ nextId st' = nextId store2.
Proof.
  assert (trimmed ∈ todos store2) as H2 by (vm_compute; right; left).
  assert (parseInt (lit "2") = Some (id trimmed)) as H3 by reflexivity.
  split; [exact reachable_store2|]. split; [exact H2|]. split; [exact H3|].
  exact (C4_put_partial_update store2 (lit "2") (json_completed true) env0
           trimmed reachable_store2 H2 H3).
Defined.

Example put_completed_only :
  handle (PUT_todo (lit "2") (json_completed true)) env0 store2
  = (200,
     PTodo {| id := 2; title := VStr (lit "Trimmed"); completed := VBool true;
              createdAt := isoString env0 |},
     {| todos := [milk;
                  {| id := 2; title := VStr (lit "Trimmed");
                     completed := VBool true; createdAt := isoString env0 |}];
        nextId := 3 |}).
Proof. reflexivity. Qed.

Example put_title_only :
  handle (PUT_todo (lit "1") (json_title "Buy bread")) env0 store2
  = (200,
     PTodo {| id := 1; title := VStr (lit "Buy bread"); completed := VBool false;
              createdAt := isoString env0 |},
     {| todos := [{| id := 1; title := VStr (lit "Buy bread");
                     completed := VBool false; createdAt := isoString env0 |};
                  trimmed];
        nextId := 3 |}).
Proof. reflexivity. Qed.

(** ** Deletion *)

(** C6.  For a record of the store, DELETE /todos/:id answers 200 with the
    record in the body and takes it out of the collection: no record of
    that id is left, the other records stay in their order, and a GET on
    the same id afterwards answers 404. *)
Theorem C6_delete_removes (st : store) (seg : jsstring) (e e' : env) (t : todo) :
  reachable st → t ∈ todos st → parseInt seg = Some (id t) →
  ∃ st',
    handle (DELETE_todo seg) e st
    = (200, PDeleted "Todo deleted successfully" t, st')
    ∧ todos st' = filter (λ u, id u ≠ id t) (todos st)
    ∧ (t ∉ todos st')
    ∧ (id t ∉ ids st')
    ∧ nextId st' = nextId st
    ∧ handle (GET_todo seg) e' st' = (404, PError "Todo not found", st').
Proof.
  intros Hr Ht Hseg. pose proof (reachable_NoDup st Hr) as Hnd.
  destruct (find_todo_unique seg (todos st) t Hnd Ht Hseg) as [i Hf].
  pose proof (find_todo_Some _ _ _ _ Hf) as [Hi _].
  exists (Store (delete i (todos st)) (nextId st)).
  assert (delete i (todos st) = filter (λ u, id u ≠ id t) (todos st)) as Hdel.
  { by apply delete_filter_key. }
  assert (id t ∉ id <$> delete i (todos st)) as Hgone.
  { rewrite Hdel. intros (u & Hu & [Hne _]%list_elem_of_filter)%list_elem_of_fmap.
    by apply Hne. }
  simpl. unfold delete_todo. rewrite Hf. split_and!; try done.
  - intros Hin. apply Hgone. by apply list_elem_of_fmap_2.
  - unfold get_todo. simpl.
    rewrite (find_todo_absent seg (id t)); [done|done|].
    intros u Hu Heq. apply Hgone. rewrite <- Heq. by apply list_elem_of_fmap_2.
Qed.

Lemma C6_witness :
  reachable store2 ∧ milk ∈ todos store2 ∧ parseInt (lit "1") = Some (id milk)
  ∧ ∃ st',
    handle (DELETE_todo (lit "1")) env0 store2
    = (200, PDeleted "Todo deleted successfully" milk, st')
    ∧ todos st' = filter (λ u, id u ≠ id milk) (todos store2)
    ∧ (milk ∉ todos st')
    ∧ (id milk ∉ ids st')
    ∧ nextId st' = nextId store2
    ∧ handle (GET_todo (lit "1")) env0 st' = (404, PError "Todo not found", st').
Proof.
  assert (milk ∈ todos store2) as H2 by (vm_compute; left).
  assert (parseInt (lit "1") = Some (id milk)) as H3 by reflexivity.
  split; [exact reachable_store2|]. split; [exact H2|]. split; [exact H3|].
  exact (C6_delete_removes store2 (lit "1") env0 env0 milk reachable_store2 H2 H3).
Defined.

Example delete_then_get :
  (run [(plain (DELETE_todo (lit "1")), env0); (plain (GET_todo (lit "1")), env0)]
       store2).2
  = {| todos := [trimmed]; nextId := 3 |}
  ∧ (λ r, (status r, body r))
      <$> (run [(plain (DELETE_todo (lit "1")), env0);
                (plain (GET_todo (lit "1")), env0)] store2).1
    = [(200, PDeleted "Todo deleted successfully" milk);
       (404, PError "Todo not found")].
Proof. split; reflexivity. Qed.

(** ** Creation and the ids *)

(** Every title that POST stores is a valid one. *)
Lemma post_todos_valid_title body e st t st' :
  post_todos body e st = (201, PTodo t, st') → valid_title (title t).
Proof.
  unfold post_todos. destruct (get_prop body (lit "title")) as [v|]; [|done].
  destruct (negb (to_boolean v)); [done|].
  destruct v as [|?|?|s|?|?]; try done.
  destruct (trim s) as [|c s'] eqn:Ht; [done|]. intros [= <- _].
  exists (c :: s'). split_and!; [done..|].
  rewrite <- Ht. apply trim_not_blank. by rewrite Ht.
Qed.

(** C2.  After any requests served from the empty store, POST /todos with
    a string title [s] that trimming does not empty answers 201 with a
    record whose title is [trim s], whose [completed] is false and whose
    id is greater than every id issued so far; the record is appended to
    the collection. *)
Theorem C2_post_creates (tr : list (request * env)) (body : value) (e : env)
    (s : jsstring) :
  get_prop body (lit "title") = Some (VStr s) → trim s ≠ [] →
  ∃ t,
    handle (POST_todos body) e (run tr init).2
    = (201, PTodo t,
       {| todos := todos (run tr init).2 ++ [t];
          nextId := nextId (run tr init).2 + 1 |})
    ∧ title t = VStr (trim s)
    ∧ completed t = VBool false
    ∧ createdAt t = isoString e
    ∧ ∀ i, i ∈ issued (run tr init).1 → i < id t.
Proof.
  intros Hb Hs.
  destruct (run_init_invariant tr) as (_ & _ & Hlt & _).
  rewrite Forall_forall in Hlt.
  exists {| id := nextId (run tr init).2; title := VStr (trim s);
            completed := VBool false; createdAt := isoString e |}.
  split_and!; try done.
  simpl. unfold post_todos. rewrite Hb.
  assert (s ≠ []) as Hne by (by intros ->).
  destruct s as [|c s]; [done|]. simpl.
  by destruct (trim (c :: s)).
Qed.

Lemma C2_witness :
  get_prop (json_title "  Trimmed  ") (lit "title") = Some (VStr (lit "  Trimmed  "))
  ∧ trim (lit "  Trimmed  ") ≠ []
  ∧ ∃ t,
    handle (POST_todos (json_title "  Trimmed  ")) env0 (run [post "Buy milk"] init).2
    = (201, PTodo t,
       {| todos := todos (run [post "Buy milk"] init).2 ++ [t];
          nextId := nextId (run [post "Buy milk"] init).2 + 1 |})
    ∧ title t = VStr (trim (lit "  Trimmed  "))
    ∧ completed t = VBool false
    ∧ createdAt t = isoString env0
    ∧ ∀ i, i ∈ issued (run [post "Buy milk"] init).1 → i < id t.
Proof.
  assert (trim (lit "  Trimmed  ") ≠ []) as H2 by (vm_compute; discriminate).
  split; [reflexivity|]. split; [exact H2|].
  exact (C2_post_creates [post "Buy milk"] (json_title "  Trimmed  ") env0
           (lit "  Trimmed  ") eq_refl H2).
Defined.

Example post_Trimmed :
  handle (POST_todos (json_title "  Trimmed  ")) env0 (run [post "Buy milk"] init).2
  = (201, PTodo trimmed, store2).
Proof. reflexivity. Qed.

(** C7.  Over any requests served from the empty store, the ids issued by
    the creations are pairwise distinct, in fact increasing, whatever was
    deleted in between; the ids of the records in the store are pairwise
    distinct, and each of them was issued by a creation. *)
Theorem C7_ids_never_reused (tr : list (request * env)) :
  StronglySorted Z.lt (issued (run tr init).1)
  ∧ NoDup (issued (run tr init).1)
  ∧ NoDup (ids (run tr init).2)
  ∧ ids (run tr init).2 ⊆ issued (run tr init).1.
Proof.
  pose proof (run_init_invariant tr) as Hinv.
  pose proof (invariant_NoDup _ _ Hinv) as Hnd.
  pose proof (λ i, invariant_ids_issued _ _ i Hinv) as Hsub.
  destruct Hinv as (_ & Hs & _).
  split_and!; [done|by apply StronglySorted_lt_NoDup|done|done].
Qed.

(** An id is not given again after its record is deleted. *)
Example delete_then_post :
  let tr := two_posts ++ [(plain (DELETE_todo (lit "2")), env0); post "Again"] in
  issued (run tr init).1 = [1; 2; 3] ∧ ids (run tr init).2 = [1; 3]
  ∧ deleted (run tr init).1 = [2].
Proof. repeat split; reflexivity. Qed.

(** C8.  After any requests served from the empty store, GET /todos
    answers 200 with the whole collection and its length as the count; the
    collection holds the records in the order of their creation, the
    deleted ones left out. *)
Theorem C8_list_in_insertion_order (tr : list (request * env)) (e : env) :
  handle GET_todos e (run tr init).2
  = (200, PList (todos (run tr init).2) (length (todos (run tr init).2)),
     (run tr init).2)
  ∧ id <$> todos (run tr init).2
    = filter (λ i, i ∉ deleted (run tr init).1) (issued (run tr init).1).
Proof.
  split; [done|]. by destruct (run_init_invariant tr) as (Hids & _).
Qed.

(** ** Correlation ids *)

Section Generated.

Implicit Types (s a b : jsstring) (d : Decimal.uint) (z : Z) (e : env).

Lemma uint_units_inj d1 d2 : uint_units d1 = uint_units d2 → d1 = d2.
Proof.
  revert d2. induction d1 as [|d1 IH|d1 IH|d1 IH|d1 IH|d1 IH|d1 IH|d1 IH|d1 IH|d1 IH|d1 IH];
    intros [|d2|d2|d2|d2|d2|d2|d2|d2|d2|d2]; simpl; intros [=];
    f_equal; auto.
Qed.

Lemma uint_units_digits d : Forall (λ c, (48 ≤ c ≤ 57)%N) (uint_units d).
Proof. induction d; simpl; constructor; (lia || done). Qed.

Lemma uint_units_head d s : uint_units d ≠ 45%N :: s.
Proof.
  intros H. pose proof (uint_units_digits d) as Hd. rewrite H in Hd.
  apply Forall_cons in Hd as [Hc _]. lia.
Qed.

Lemma number_to_string_inj z1 z2 :
  number_to_string z1 = number_to_string z2 → z1 = z2.
Proof.
  destruct z1 as [|p1|p1], z2 as [|p2|p2]; unfold number_to_string;
    try (intros H; by apply uint_units_head in H);
    try (intros H; symmetry in H; by apply uint_units_head in H).
  - done.
  - intros H%uint_units_inj%DecimalN.Unsigned.to_uint_inj. by simplify_eq/=.
  - intros H%uint_units_inj%DecimalN.Unsigned.to_uint_inj. by simplify_eq/=.
  - intros H%uint_units_inj%DecimalN.Unsigned.to_uint_inj. by simplify_eq/=.
  - intros [= H%uint_units_inj%DecimalPos.Unsigned.to_uint_inj]. by subst.
Qed.

Lemma digit36_not_dash n : digit36 n ≠ 45%N.
Proof. unfold digit36. case_match; lia. Qed.

Lemma random_suffix_no_dash e : 45%N ∉ random_suffix e.
Proof.
  unfold random_suffix, substr, random_to_string36.
  destruct (random e) as [|n ds].
  - apply not_elem_of_nil.
  - change (45%N ∉ take 9 (digit36 <$> n :: ds)).
    intros Hin%subseteq_take%list_elem_of_fmap.
    destruct Hin as (m & Hm & _). symmetry in Hm. by apply digit36_not_dash in Hm.
Qed.

(** A string is cut at its last dash in one way only. *)
Lemma app_dash_inj a b s1 s2 :
  45%N ∉ s1 → 45%N ∉ s2 → a ++ 45%N :: s1 = b ++ 45%N :: s2 → a = b ∧ s1 = s2.
Proof.
  intros H1 H2. revert b. induction a as [|x a IH]; intros [|y b]; simpl; intros [=].
  - done.
  - subst. destruct H1. apply elem_of_app. right. left.
  - subst. destruct H2. apply elem_of_app. right. left.
  - subst. destruct (IH b) as [-> ->]; done.
Qed.

Lemma generated_id_inj e1 e2 :
  generated_id e1 = generated_id e2 ↔
  now e1 = now e2 ∧ random_suffix e1 = random_suffix e2.
Proof.
  unfold generated_id. split.
  - intros [Hn Hs]%app_dash_inj; try apply random_suffix_no_dash.
    split; [by apply number_to_string_inj|done].
  - by intros [-> ->].
Qed.

Lemma generated_id_nonempty e : generated_id e ≠ [].
Proof. unfold generated_id. by destruct (number_to_string (now e)). Qed.

End Generated.

Lemma app_correlation_header rq e st :
  body_rejected rq = false →
  correlation_header (app rq e st).1 = Some (correlationId rq e).
Proof.
  intros Hb. unfold app. rewrite Hb.
  by destruct (handle (target rq) e st) as [[code pl] st'].
Qed.

(** Any header value that is not empty is echoed. *)
Lemma correlation_header_echo rq e st h :
  body_rejected rq = false → x_correlation_id rq = Some h → h ≠ [] →
  correlation_header (app rq e st).1 = Some h.
Proof.
  intros Hb Hh Hne. rewrite app_correlation_header by done.
  unfold correlationId. rewrite Hh. by destruct h.
Qed.

(** C9, amended.  For a request that reaches the correlation middleware:
    with the header X-Correlation-ID set to "test-correlation-id", the
    response carries exactly "test-correlation-id"; with no such header,
    the response carries the generated id, made of the clock reading, a
    dash and the first nine base-36 digits of the random draw; that id is
    not empty, and it differs from the one of any other such request whose
    clock reading or whose nine digits differ. *)
Theorem C9_correlation_header (rq : request) (e : env) (st : store) :
  body_rejected rq = false →
  (x_correlation_id rq = Some (lit "test-correlation-id") →
   correlation_header (app rq e st).1 = Some (lit "test-correlation-id"))
  ∧ (x_correlation_id rq = None →
     correlation_header (app rq e st).1 = Some (generated_id e)
     ∧ generated_id e ≠ []
     ∧ ∀ rq' e' st',
         body_rejected rq' = false → x_correlation_id rq' = None →
         now e' ≠ now e ∨ random_suffix e' ≠ random_suffix e →
         correlation_header (app rq' e' st').1
         ≠ correlation_header (app rq e st).1).
Proof.
  intros Hb. split.
  - intros Hh. by apply correlation_header_echo.
  - intros Hh. rewrite app_correlation_header by done.
    unfold correlationId at 1 2. rewrite Hh. split_and!.
    + done.
    + apply generated_id_nonempty.
    + intros rq' e' st' Hb' Hh' Hdiff. rewrite app_correlation_header by done.
      unfold correlationId. rewrite Hh'.
      intros [= Heq%generated_id_inj]. tauto.
Qed.

Lemma C9_witness :
  body_rejected (with_header "test-correlation-id" GET_health) = false
  ∧ x_correlation_id (with_header "test-correlation-id" GET_health)
    = Some (lit "test-correlation-id")
  ∧ correlation_header (app (with_header "test-correlation-id" GET_health) env0 init).1
    = Some (lit "test-correlation-id")
  ∧ body_rejected (plain GET_todos) = false
  ∧ x_correlation_id (plain GET_todos) = None
  ∧ (now envA ≠ now env0 ∨ random_suffix envA ≠ random_suffix env0)
  ∧ correlation_header (app (plain GET_todos) env0 store2).1
    = Some (generated_id env0)
  ∧ correlation_header (app (plain GET_todos) envA init).1
    ≠ correlation_header (app (plain GET_todos) env0 store2).1.
Proof.
  assert (now envA ≠ now env0 ∨ random_suffix envA ≠ random_suffix env0) as Hd
    by (right; vm_compute; discriminate).
  split; [reflexivity|]. split; [reflexivity|]. split.
  { apply (C9_correlation_header (with_header "test-correlation-id" GET_health)
             env0 init); reflexivity. }
  split; [reflexivity|]. split; [reflexivity|]. split; [exact Hd|].
  destruct (C9_correlation_header (plain GET_todos) env0 store2 eq_refl)
    as [_ Hgen].
  destruct (Hgen eq_refl) as (Hh & _ & Huniq).
  split; [exact Hh|].
  exact (Huniq (plain GET_todos) envA init eq_refl eq_refl Hd).
Defined.

Example generated_id_env0 : generated_id env0 = lit "1700000000000-i".
Proof. reflexivity. Qed.

(** Two requests without the header, served in the same millisecond with
    random draws that share their first nine digits, get the same id. *)
Lemma C9_counterexample :
  x_correlation_id (plain GET_health) = None
  ∧ random envA ≠ random envB
  ∧ correlation_header
      <$> (run [(plain GET_health, envA); (plain GET_health, envB)] init).1
    = [Some (lit "1700000000000-123456789");
       Some (lit "1700000000000-123456789")].
Proof. split_and!; [reflexivity|discriminate|reflexivity]. Qed.

(** A request whose payload [express.json()] rejects is answered by the
    error handler without passing through the correlation middleware. *)
Example rejected_body_no_header :
  (app {| x_correlation_id := Some (lit "test-correlation-id");
          body_rejected := true; target := POST_todos VNull |} env0 init).1
  = {| correlation_header := None; status := 500;
       body := PError "Internal server error" |}.
Proof. reflexivity. Qed.

(** ** Titles after an update *)

(** C1, on the request that breaks it: PUT stores the title of the body as
    it comes, so that an empty title replaces a valid one. *)
Theorem C1_put_stores_empty_title :
  todos (run [post "Buy milk";
              (plain (PUT_todo (lit "1") (json_title "")), env0)] init).2
  = [{| id := 1; title := VStr []; completed := VBool false;
        createdAt := isoString env0 |}]
  ∧ ¬ valid_title (VStr []).
Proof.
  split; [reflexivity|]. intros (s & [= <-] & Hs & _). by apply Hs.
Qed.

Example put_stores_blank_title :
  title <$> todos (run [post "Buy milk";
                        (plain (PUT_todo (lit "1") (json_title "   ")), env0)] init).2
  = [VStr (lit "   ")]
  ∧ blank (lit "   ") = true.
Proof. split; reflexivity. Qed.

Example put_stores_null_title :
  title <$> todos (run [post "Buy milk";
                        (plain (PUT_todo (lit "1") (VObj [(lit "title", VNull)])), env0)]
                       init).2
  = [VNull].
Proof. reflexivity. Qed.

(** * Further properties of the service *)

(** ** Ids in path segments *)

Section ParseInt.

Implicit Types (d : Decimal.uint) (rest : jsstring) (p : positive).

Lemma digit_value_not_decimal c :
  is_decimal_digit c = false →
  digit_value c = None ∨ ∃ v, digit_value c = Some v ∧ 10 ≤ v.
Proof.
  unfold is_decimal_digit, digit_value. intros ->.
  destruct ((97 <=? c) && (c <=? 122))%N eqn:Hl.
  { apply andb_true_iff in Hl as [Hl%N.leb_le _].
    right. eexists. split; [done|]. lia. }
  destruct ((65 <=? c) && (c <=? 90))%N eqn:Hu; [|by left].
  apply andb_true_iff in Hu as [Hu%N.leb_le _].
  right. eexists. split; [done|]. lia.
Qed.

Lemma parse_digits_stop rest acc :
  decimal_stop rest → parse_digits 10 rest acc = acc.
Proof.
  destruct rest as [|c r]; [done|]. simpl.
  intros [-> | (v & -> & Hv)]%digit_value_not_decimal; [done|].
  by rewrite (proj2 (Z.ltb_ge v 10)).
Qed.

Lemma parse_digits_step c v l acc :
  digit_value c = Some v → v < 10 →
  parse_digits 10 (c :: l) acc = parse_digits 10 l (Some (10 * default 0 acc + v)).
Proof.
  intros Hc Hv. simpl. rewrite Hc. by rewrite (proj2 (Z.ltb_lt v 10)).
Qed.

(** One digit of [uint_units] read by [parse_digits]. *)
Ltac read_digit :=
  cbn [uint_units]; rewrite <- app_comm_cons;
  erewrite parse_digits_step by (reflexivity || lia).

(** Reading the digits of [d] after a positive accumulator. *)
Lemma parse_digits_acc d rest p :
  decimal_stop rest →
  parse_digits 10 (uint_units d ++ rest) (Some (Zpos p))
  = Some (Zpos (Pos.of_uint_acc d p)).
Proof.
  intros Hr. revert p.
  induction d as [|d IH|d IH|d IH|d IH|d IH|d IH|d IH|d IH|d IH|d IH];
    intros p; [by apply parse_digits_stop|..];
    read_digit; cbn [Pos.of_uint_acc]; rewrite <- IH;
    do 2 f_equal; cbv [default from_option Datatypes.id]; lia.
Qed.

(** Reading the digits of [d] from the start, or after zeros only. *)
Lemma parse_digits_zero d rest acc :
  decimal_stop rest → default 0 acc = 0 → d ≠ Nil ∨ acc = Some 0 →
  parse_digits 10 (uint_units d ++ rest) acc = Some (Z.of_N (Pos.of_uint d)).
Proof.
  intros Hr. revert acc.
  induction d as [|d IH|d IH|d IH|d IH|d IH|d IH|d IH|d IH|d IH|d IH];
    intros acc Hacc Hd.
  - destruct Hd as [?| ->]; [done|]. by apply parse_digits_stop.
  - read_digit. rewrite Hacc. cbn [Pos.of_uint]. apply IH; [done|by right].
  - read_digit. rewrite Hacc. exact (parse_digits_acc d rest 1 Hr).
  - read_digit. rewrite Hacc. exact (parse_digits_acc d rest 2 Hr).
  - read_digit. rewrite Hacc. exact (parse_digits_acc d rest 3 Hr).
  - read_digit. rewrite Hacc. exact (parse_digits_acc d rest 4 Hr).
  - read_digit. rewrite Hacc. exact (parse_digits_acc d rest 5 Hr).
  - read_digit. rewrite Hacc. exact (parse_digits_acc d rest 6 Hr).
  - read_digit. rewrite Hacc. exact (parse_digits_acc d rest 7 Hr).
  - read_digit. rewrite Hacc. exact (parse_digits_acc d rest 8 Hr).
  - read_digit. rewrite Hacc. exact (parse_digits_acc d rest 9 Hr).
Qed.

(** On decimal digits, with or without a minus sign, [parseInt] finds no
    white space to skip and no hexadecimal prefix. *)
Lemma parseInt_decimal d rest :
  d ≠ Nil → d ≠ D0 Nil ∨ rest = [] →
  parseInt (uint_units d ++ rest)
  = Z.mul 1 <$> parse_digits 10 (uint_units d ++ rest) None
  ∧ parseInt (45%N :: uint_units d ++ rest)
    = Z.mul (-1) <$> parse_digits 10 (uint_units d ++ rest) None.
Proof.
  intros Hnil Hzero.
  destruct d as [|d|d|d|d|d|d|d|d|d|d]; [done|..]; try (split; reflexivity).
  destruct d as [|d|d|d|d|d|d|d|d|d|d]; try (split; reflexivity).
  destruct Hzero as [?| ->]; [done|]. split; reflexivity.
Qed.

Lemma to_uint_not_zero p : Pos.to_uint p ≠ D0 Nil.
Proof. exact (DecimalPos.Unsigned.to_uint_nonzero p). Qed.

Lemma parseInt_pos p rest :
  decimal_stop rest →
  parseInt (uint_units (Pos.to_uint p) ++ rest) = Some (Zpos p)
  ∧ parseInt (45%N :: uint_units (Pos.to_uint p) ++ rest) = Some (Zneg p).
Proof.
  intros Hr.
  destruct (parseInt_decimal (Pos.to_uint p) rest) as [-> ->];
    [apply DecimalPos.Unsigned.to_uint_nonnil|left; apply to_uint_not_zero|].
  rewrite (parse_digits_zero _ rest None Hr);
    [|done|left; apply DecimalPos.Unsigned.to_uint_nonnil].
  by rewrite DecimalPos.Unsigned.of_to.
Qed.

Lemma parseInt_number_to_string_stop z rest :
  z ≠ 0 → decimal_stop rest → parseInt (number_to_string z ++ rest) = Some z.
Proof.
  intros Hz Hr. destruct z as [|p|p]; [done|..]; unfold number_to_string.
  - apply (parseInt_pos p rest Hr).
  - apply (parseInt_pos p rest Hr).
Qed.

End ParseInt.

(** ** Bookkeeping of ids and records *)

Section Accounting.

Implicit Types (st : store) (r : response) (rs : list response).

Lemma run_app tr1 tr2 st :
  run (tr1 ++ tr2) st
  = ((run tr1 st).1 ++ (run tr2 (run tr1 st).2).1, (run tr2 (run tr1 st).2).2).
Proof.
  revert st. induction tr1 as [|[rq e] tr1 IH]; intros st; simpl.
  - by destruct (run tr2 st).
  - destruct (app rq e st) as [r st1]. rewrite IH.
    by destruct (run tr1 st1) as [rs1 st2].
Qed.

Lemma run_snoc tr rq e :
  (run (tr ++ [(rq, e)]) init).2 = (app rq e (run tr init).2).2.
Proof.
  rewrite run_app. simpl. by destruct (app rq e (run tr init).2).
Qed.

Lemma reachable_run tr : reachable (run tr init).2.
Proof. by exists tr. Qed.

Lemma reachable_app rq e st : reachable st → reachable (app rq e st).2.
Proof. intros [tr <-]. exists (tr ++ [(rq, e)]). apply run_snoc. Qed.

Lemma accounting_init : accounting [] init.
Proof. repeat split; try done. constructor. Qed.

Lemma transition_accounting rs st r st' :
  invariant rs st → accounting rs st → transition st r st' →
  accounting (rs ++ [r]) st'.
Proof.
  intros Hinv (Hseq & Hpos & Hlen & Hnd) Htr.
  pose proof (λ i, invariant_ids_issued _ _ i Hinv) as Hsub.
  destruct Hinv as (Hids & _ & _ & Hdel).
  unfold accounting. rewrite issued_snoc, deleted_snoc.
  destruct Htr as [r Hi Hd|r t Hst Hb Hid|r i t t' Hi Hd Hl Hid|r i t msg Hb Hl].
  - rewrite Hi, Hd. simpl. by rewrite !app_nil_r.
  - assert (issued_by r = Some (nextId st)) as ->.
    { unfold issued_by. rewrite Hb, Hid. by rewrite decide_True. }
    assert (deleted_by r = None) as ->.
    { unfold deleted_by. by rewrite Hb. }
    simpl. rewrite app_nil_r, !length_app. simpl. split_and!; [|lia|lia|done].
    rewrite Hseq. replace (nextId st + 1 - 1) with ((nextId st - 1) + 1) by lia.
    rewrite seqZ_app by lia. f_equal. rewrite seqZ_cons, seqZ_nil by lia.
    f_equal. lia.
  - rewrite Hi, Hd. simpl. rewrite !app_nil_r, length_insert. done.
  - assert (issued_by r = None) as ->.
    { unfold issued_by. by rewrite Hb. }
    assert (deleted_by r = Some (id t)) as ->.
    { unfold deleted_by. by rewrite Hb. }
    simpl. rewrite app_nil_r, length_app, length_delete by eauto. simpl.
    pose proof (lookup_lt_Some _ _ _ Hl). split_and!; [done|done|lia|].
    apply NoDup_app. split_and!; [done| |apply NoDup_singleton].
    intros x Hx ->%list_elem_of_singleton.
    assert (id t ∈ ids st) as Hin.
    { apply list_elem_of_fmap_2. by eapply list_elem_of_lookup_2. }
    rewrite Hids in Hin. by apply list_elem_of_filter in Hin as [? _].
Qed.

Lemma run_accounting tr : ∀ rs0 st,
  invariant rs0 st → accounting rs0 st →
  accounting (rs0 ++ (run tr st).1) (run tr st).2.
Proof.
  induction tr as [|[rq e] tr IH]; intros rs0 st Hinv Hacc; simpl.
  - by rewrite app_nil_r.
  - pose proof (app_transition rq e st) as Htr.
    destruct (app rq e st) as [r st1]. simpl in Htr.
    specialize (IH (rs0 ++ [r]) st1 (transition_invariant _ _ _ _ Hinv Htr)
                  (transition_accounting _ _ _ _ Hinv Hacc Htr)).
    destruct (run tr st1) as [rss st2]. simpl in *.
    by rewrite <- app_assoc in IH.
Qed.

Lemma run_init_accounting tr : accounting (run tr init).1 (run tr init).2.
Proof. exact (run_accounting tr [] init invariant_init accounting_init). Qed.

Lemma StronglySorted_filter (P : Z → Prop) `{∀ x, Decision (P x)} (l : list Z) :
  StronglySorted Z.lt l → StronglySorted Z.lt (filter P l).
Proof.
  induction 1 as [|x l Hs IH Hx]; [constructor|].
  rewrite filter_cons. case_decide; [|done].
  constructor; [done|]. rewrite Forall_forall in Hx |- *.
  intros y [_ Hy]%list_elem_of_filter. by apply Hx.
Qed.

End Accounting.

Lemma parseInt_number_to_string z : parseInt (number_to_string z) = Some z.
Proof.
  destruct (decide (z = 0)) as [->|Hz]; [reflexivity|].
  rewrite <- (app_nil_r (number_to_string z)).
  by apply parseInt_number_to_string_stop.
Qed.

Lemma trim_start_blank_app w s : blank w = true → trim_start (w ++ s) = trim_start s.
Proof.
  induction w as [|c w IH]; [done|]. simpl.
  intros [-> Hw]%andb_true_iff. by apply IH.
Qed.

Lemma parseInt_leading_blank w s : blank w = true → parseInt (w ++ s) = parseInt s.
Proof. intros Hw. unfold parseInt. by rewrite trim_start_blank_app. Qed.

(** The handlers see a path segment through [parseInt] only. *)
Lemma handle_parseInt_ext seg1 seg2 body e st :
  parseInt seg1 = parseInt seg2 →
  handle (GET_todo seg1) e st = handle (GET_todo seg2) e st
  ∧ handle (PUT_todo seg1 body) e st = handle (PUT_todo seg2 body) e st
  ∧ handle (DELETE_todo seg1) e st = handle (DELETE_todo seg2) e st.
Proof.
  intros Heq. simpl. unfold get_todo, put_todo, delete_todo, find_todo.
  by rewrite Heq.
Qed.

Lemma get_todo_by_id st t :
  NoDup (ids st) → t ∈ todos st →
  get_todo (number_to_string (id t)) st = (200, PTodo t, st).
Proof.
  intros Hnd Ht.
  destruct (find_todo_unique (number_to_string (id t)) (todos st) t Hnd Ht
              (parseInt_number_to_string (id t))) as [i Hf].
  unfold get_todo. by rewrite Hf.
Qed.

Lemma post_todos_created body e st s :
  get_prop body (lit "title") = Some (VStr s) → trim s ≠ [] →
  post_todos body e st
  = (201,
     PTodo (Todo (nextId st) (VStr (trim s)) (VBool false) (isoString e)),
     Store (todos st ++ [Todo (nextId st) (VStr (trim s)) (VBool false) (isoString e)])
           (nextId st + 1)).
Proof.
  intros Hb Hs. unfold post_todos. rewrite Hb.
  assert (s ≠ []) as Hne by (by intros ->).
  destruct s as [|c s]; [done|]. simpl.
  by destruct (trim (c :: s)).
Qed.

(** X1.  Every record of the collection can be fetched with its id written
    in decimal as the path segment: GET /todos/:id answers 200 with that
    very record and leaves the store as it is. *)
Theorem X1_listed_record_is_fetched (st : store) (e : env) (t : todo) :
  reachable st → t ∈ todos st →
  handle (GET_todo (number_to_string (id t))) e st = (200, PTodo t, st).
Proof.
  intros Hr Ht. simpl. apply get_todo_by_id; [by apply reachable_NoDup|done].
Qed.

Lemma X1_witness :
  reachable store2 ∧ trimmed ∈ todos store2
  ∧ handle (GET_todo (number_to_string (id trimmed))) env0 store2
    = (200, PTodo trimmed, store2).
Proof.
  assert (trimmed ∈ todos store2) as H2 by (vm_compute; right; left).
  split; [exact reachable_store2|]. split; [exact H2|].
  exact (X1_listed_record_is_fetched store2 env0 trimmed reachable_store2 H2).
Defined.

(** X2.  A GET on the id that a successful POST has just returned answers
    200 with the record that the POST returned. *)
Theorem X2_get_after_post (tr : list (request * env)) (body : value)
    (e e' : env) (s : jsstring) :
  get_prop body (lit "title") = Some (VStr s) → trim s ≠ [] →
  ∃ t st1,
    handle (POST_todos body) e (run tr init).2 = (201, PTodo t, st1)
    ∧ handle (GET_todo (number_to_string (id t))) e' st1 = (200, PTodo t, st1).
Proof.
  intros Hb Hs. do 2 eexists. simpl. split.
  - by apply post_todos_created.
  - apply get_todo_by_id.
    + apply reachable_NoDup.
      pose proof (reachable_app (plain (POST_todos body)) e _ (reachable_run tr)) as Hr.
      unfold app in Hr. simpl in Hr.
      by rewrite (post_todos_created body e _ s Hb Hs) in Hr.
    + simpl. apply elem_of_app. right. left.
Qed.

Lemma X2_witness :
  get_prop (json_title "  Trimmed  ") (lit "title") = Some (VStr (lit "  Trimmed  "))
  ∧ trim (lit "  Trimmed  ") ≠ []
  ∧ ∃ t st1,
    handle (POST_todos (json_title "  Trimmed  ")) env0 (run [post "Buy milk"] init).2
    = (201, PTodo t, st1)
    ∧ handle (GET_todo (number_to_string (id t))) envA st1 = (200, PTodo t, st1).
Proof.
  assert (trim (lit "  Trimmed  ") ≠ []) as H2 by (vm_compute; discriminate).
  split; [reflexivity|]. split; [exact H2|].
  exact (X2_get_after_post [post "Buy milk"] (json_title "  Trimmed  ") env0 envA
           (lit "  Trimmed  ") eq_refl H2).
Defined.

(** X3.  The handlers of /todos/:id read the leading integer of the path
    segment and nothing else: white space before the digits of a non-zero
    id, and anything after them that does not start with a decimal digit,
    change neither the response nor the effect of GET, PUT and DELETE. *)
Theorem X3_segment_leading_integer (n : Z) (w rest : jsstring) (body : value)
    (e : env) (st : store) :
  n ≠ 0 → blank w = true → decimal_stop rest →
  handle (GET_todo (w ++ number_to_string n ++ rest)) e st
  = handle (GET_todo (number_to_string n)) e st
  ∧ handle (PUT_todo (w ++ number_to_string n ++ rest) body) e st
    = handle (PUT_todo (number_to_string n) body) e st
  ∧ handle (DELETE_todo (w ++ number_to_string n ++ rest)) e st
    = handle (DELETE_todo (number_to_string n)) e st.
Proof.
  intros Hn Hw Hr. apply handle_parseInt_ext.
  rewrite parseInt_leading_blank by done.
  by rewrite parseInt_number_to_string_stop, parseInt_number_to_string.
Qed.

Lemma X3_witness :
  2 ≠ 0 ∧ blank (lit " ") = true ∧ decimal_stop (lit "nd")
  ∧ handle (GET_todo (lit " " ++ number_to_string 2 ++ lit "nd")) env0 store2
    = handle (GET_todo (number_to_string 2)) env0 store2
  ∧ handle (PUT_todo (lit " " ++ number_to_string 2 ++ lit "nd") (json_completed true))
           env0 store2
    = handle (PUT_todo (number_to_string 2) (json_completed true)) env0 store2
  ∧ handle (DELETE_todo (lit " " ++ number_to_string 2 ++ lit "nd")) env0 store2
    = handle (DELETE_todo (number_to_string 2)) env0 store2.
Proof.
  assert (2 ≠ 0) as H1 by lia.
  split; [exact H1|]. split; [reflexivity|]. split; [reflexivity|].
  exact (X3_segment_leading_integer 2 (lit " ") (lit "nd") (json_completed true)
           env0 store2 H1 eq_refl eq_refl).
Defined.

Example get_2nd :
  handle (GET_todo (lit " 2nd")) env0 store2 = (200, PTodo trimmed, store2).
Proof. reflexivity. Qed.

(** A zero followed by [x] is read as a hexadecimal prefix. *)
Example parseInt_0x1 : parseInt (number_to_string 0 ++ lit "x1") = Some 1.
Proof. reflexivity. Qed.

(** X4.  Over any requests served from the empty store, the ids issued are
    1, 2, 3, ... in this order, with no gap, and the counter is one more
    than the number of records created. *)
Theorem X4_ids_sequential (tr : list (request * env)) :
  issued (run tr init).1 = seqZ 1 (Z.of_nat (length (issued (run tr init).1)))
  ∧ nextId (run tr init).2 = Z.of_nat (length (issued (run tr init).1)) + 1.
Proof.
  destruct (run_init_accounting tr) as (Hseq & Hpos & _).
  assert (Z.of_nat (length (issued (run tr init).1)) = nextId (run tr init).2 - 1)
    as Hlen.
  { rewrite Hseq at 1. rewrite length_seqZ. lia. }
  rewrite Hlen. split; [done|lia].
Qed.

(** X5.  Over any requests served from the empty store, the collection
    holds as many records as were created and not deleted, and no id is
    reported deleted twice. *)
Theorem X5_store_size (tr : list (request * env)) :
  (length (todos (run tr init).2) + length (deleted (run tr init).1)
   = length (issued (run tr init).1))%nat
  ∧ NoDup (deleted (run tr init).1).
Proof. by destruct (run_init_accounting tr) as (_ & _ & Hlen & Hnd). Qed.

(** X6.  In every store reached from the empty one, the records are kept
    by increasing id, and every id is at least 1 and below the counter. *)
Theorem X6_ids_increasing_and_bounded (tr : list (request * env)) :
  StronglySorted Z.lt (ids (run tr init).2)
  ∧ Forall (λ i, 1 ≤ i < nextId (run tr init).2) (ids (run tr init).2).
Proof.
  destruct (run_init_invariant tr) as (Hids & Hs & _).
  destruct (run_init_accounting tr) as (Hseq & _).
  rewrite Hids. split; [by apply StronglySorted_filter|].
  apply Forall_forall. intros i [_ Hi]%list_elem_of_filter.
  rewrite Hseq in Hi. apply elem_of_seqZ in Hi. lia.
Qed.

(** ** Outcomes of the requests *)

Section Outcomes.

Implicit Types (st : store) (seg : jsstring) (body : value) (e : env).

Lemma handle_error_unchanged rt e st :
  400 ≤ (handle rt e st).1.1 → (handle rt e st).2 = st.
Proof.
  destruct rt as [| | |seg|b|seg b|seg|]; simpl; try done.
  - unfold get_todo. by destruct (find_todo seg (todos st)) as [[i t]|].
  - unfold post_todos. destruct (get_prop b (lit "title")) as [v|]; [|done].
    destruct (negb (to_boolean v)); [done|].
    destruct v as [|?|?|s|?|?]; try done.
    destruct (trim s); [done|]. simpl. lia.
  - unfold put_todo. destruct (find_todo seg (todos st)) as [[i t]|]; [|done].
    simpl. lia.
  - unfold delete_todo. destruct (find_todo seg (todos st)) as [[i t]|]; [|done].
    simpl. lia.
Qed.

Lemma handle_status rt e st :
  (handle rt e st).1.1 ∈ [200; 201; 400; 404; 500].
Proof.
  destruct rt as [| | |seg|b|seg b|seg|]; simpl;
    repeat first
      [ progress unfold get_todo, post_todos, put_todo, delete_todo
      | case_match ];
    simpl; repeat first [by left | right].
Qed.

Lemma app_status_store rq e st :
  status (app rq e st).1
  = (if body_rejected rq then 500 else (handle (target rq) e st).1.1)
  ∧ (app rq e st).2
    = (if body_rejected rq then st else (handle (target rq) e st).2).
Proof.
  unfold app. destruct (body_rejected rq); [done|].
  by destruct (handle (target rq) e st) as [[code pl] st'].
Qed.

End Outcomes.

(** X7.  Every response has one of the statuses 200, 201, 400, 404 and
    500, and a request answered with an error status (400 or above) leaves
    the collection and the counter exactly as they were. *)
Theorem X7_errors_change_nothing (rq : request) (e : env) (st : store) :
  status (app rq e st).1 ∈ [200; 201; 400; 404; 500]
  ∧ (400 ≤ status (app rq e st).1 → (app rq e st).2 = st).
Proof.
  destruct (app_status_store rq e st) as [-> ->].
  destruct (body_rejected rq).
  - split; [|done]. repeat first [by left | right].
  - split; [apply handle_status|apply handle_error_unchanged].
Qed.

(** X8.  What POST /todos answers is decided by the title of the body
    alone: 201 for a string with a code unit that is not white space, 400
    for any other string, 500 for a truthy value that is not a string, 400
    for a falsy value or no title; the store changes with 201 only. *)
Theorem X8_post_outcomes (body : value) (e : env) (st : store) :
  (handle (POST_todos body) e st).1.1
  = match get_prop body (lit "title") with
    | Some (VStr s) => if blank s then 400 else 201
    | Some v => if to_boolean v then 500 else 400
    | None => 400
    end
  ∧ ((handle (POST_todos body) e st).1.1 ≠ 201 →
     (handle (POST_todos body) e st).2 = st).
Proof.
  simpl. unfold post_todos.
  destruct (get_prop body (lit "title")) as [v|]; [|done].
  destruct v as [|b|x|s|l|f]; simpl; try (by destruct b);
    try (by destruct x); try done.
  destruct s as [|c s]; [done|]. simpl negb. cbv iota.
  destruct (trim (c :: s)) as [|c' s'] eqn:Ht.
  - apply trim_nil in Ht. by rewrite Ht.
  - assert (blank (c :: s) = false) as ->; [|done].
    destruct (blank (c :: s)) eqn:Hb; [|done].
    apply trim_nil in Hb. congruence.
Qed.

Example post_true_title :
  (handle (POST_todos (VObj [(lit "title", VBool true)])) env0 store2).1
  = (500, PError "Internal server error").
Proof. reflexivity. Qed.

(** ** Updates, again *)

Section Put.

Implicit Types (l : list todo) (t : todo) (seg : jsstring) (body : value).

(** Replacing the record found by one of the same id does not move it. *)
Lemma find_todo_insert seg l i t t' :
  find_todo seg l = Some (i, t) → id t' = id t →
  find_todo seg (<[i := t']> l) = Some (i, t').
Proof.
  unfold find_todo. intros (Hi & Hid & Hleast)%list_find_Some Heq.
  apply list_find_Some. split_and!.
  - apply list_lookup_insert_eq. by eapply lookup_lt_Some.
  - unfold has_id in *. by rewrite Heq.
  - intros j u Hj Hlt. apply (Hleast j u); [|done].
    rewrite list_lookup_insert_ne in Hj; [done|lia].
Qed.

Lemma assign_idemp body t : assign body (assign body t) = assign body t.
Proof.
  unfold assign. simpl.
  by destruct (get_prop body (lit "title")), (get_prop body (lit "completed")).
Qed.

End Put.

(** X9.  PUT /todos/:id is idempotent: the same request sent again gets
    the same response and leaves the store as the first one left it. *)
Theorem X9_put_idempotent (seg : jsstring) (body : value) (e e' : env) (st : store) :
  handle (PUT_todo seg body) e' (handle (PUT_todo seg body) e st).2
  = handle (PUT_todo seg body) e st.
Proof.
  simpl. unfold put_todo at 2 3.
  destruct (find_todo seg (todos st)) as [[i t]|] eqn:Hf; simpl.
  - unfold put_todo. simpl.
    rewrite (find_todo_insert seg (todos st) i t (assign body t) Hf eq_refl).
    by rewrite assign_idemp, list_insert_insert_eq.
  - unfold put_todo. by rewrite Hf.
Qed.

(** X10.  After a PUT answered with 200, a GET on the same path segment
    answers 200 with the record that the PUT returned. *)
Theorem X10_get_after_put (seg : jsstring) (body : value) (e e' : env)
    (st st1 : store) (t' : todo) :
  handle (PUT_todo seg body) e st = (200, PTodo t', st1) →
  handle (GET_todo seg) e' st1 = (200, PTodo t', st1).
Proof.
  simpl. unfold put_todo, get_todo.
  destruct (find_todo seg (todos st)) as [[i t]|] eqn:Hf; [|done].
  intros [= <- <-]. simpl.
  by rewrite (find_todo_insert seg (todos st) i t (assign body t) Hf eq_refl).
Qed.

Lemma X10_witness :
  handle (PUT_todo (lit "1") (json_title "Buy bread")) env0 store2
  = (200, PTodo (Todo 1 (VStr (lit "Buy bread")) (VBool false) (isoString env0)),
     Store [Todo 1 (VStr (lit "Buy bread")) (VBool false) (isoString env0); trimmed] 3)
  ∧ handle (GET_todo (lit "1")) envA
           (Store [Todo 1 (VStr (lit "Buy bread")) (VBool false) (isoString env0);
                   trimmed] 3)
    = (200, PTodo (Todo 1 (VStr (lit "Buy bread")) (VBool false) (isoString env0)),
       Store [Todo 1 (VStr (lit "Buy bread")) (VBool false) (isoString env0); trimmed] 3).
Proof.
  split; [reflexivity|].
  apply (X10_get_after_put (lit "1") (json_title "Buy bread") env0 envA store2).
  reflexivity.
Defined.

Lemma X7_witness :
  400 ≤ status (app (plain (DELETE_todo (lit "7"))) env0 store2).1
  ∧ status (app (plain (DELETE_todo (lit "7"))) env0 store2).1
    ∈ [200; 201; 400; 404; 500]
  ∧ (app (plain (DELETE_todo (lit "7"))) env0 store2).2 = store2.
Proof.
  assert (400 ≤ status (app (plain (DELETE_todo (lit "7"))) env0 store2).1) as H
    by (vm_compute; discriminate).
  destruct (X7_errors_change_nothing (plain (DELETE_todo (lit "7"))) env0 store2)
    as [H1 H2].
  split; [exact H|]. split; [exact H1|exact (H2 H)].
Defined.

Lemma X8_witness :
  (handle (POST_todos (json_title " ")) env0 store2).1.1 ≠ 201
  ∧ (handle (POST_todos (json_title " ")) env0 store2).1.1 = 400
  ∧ (handle (POST_todos (json_title " ")) env0 store2).2 = store2.
Proof.
  assert ((handle (POST_todos (json_title " ")) env0 store2).1.1 ≠ 201) as H
    by (vm_compute; discriminate).
  destruct (X8_post_outcomes (json_title " ") env0 store2) as [H1 H2].
  split; [exact H|]. split; [exact H1|exact (H2 H)].
Defined.

(** ** Creation followed by deletion *)

(** X11.  In a store reached from the empty one, creating a todo and then
    deleting it by the id returned gives the collection back as it was;
    the DELETE reports the record created, and the counter stays one
    ahead, so that the id is not given again. *)
Theorem X11_post_then_delete (tr : list (request * env)) (body : value)
    (e e' : env) (s : jsstring) :
  get_prop body (lit "title") = Some (VStr s) → trim s ≠ [] →
  ∃ t st1 st2,
    handle (POST_todos body) e (run tr init).2 = (201, PTodo t, st1)
    ∧ handle (DELETE_todo (number_to_string (id t))) e' st1
      = (200, PDeleted "Todo deleted successfully" t, st2)
    ∧ todos st2 = todos (run tr init).2
    ∧ nextId st2 = nextId (run tr init).2 + 1.
Proof.
  intros Hb Hs. set (st := (run tr init).2).
  set (t := Todo (nextId st) (VStr (trim s)) (VBool false) (isoString e)).
  set (st1 := Store (todos st ++ [t]) (nextId st + 1)).
  assert (NoDup (ids st1)) as Hnd.
  { apply reachable_NoDup.
    pose proof (reachable_app (plain (POST_todos body)) e _ (reachable_run tr)) as Hr.
    unfold app in Hr. simpl in Hr.
    by rewrite (post_todos_created body e _ s Hb Hs) in Hr. }
  assert (t ∈ todos st1) as Ht by (apply elem_of_app; right; left).
  destruct (find_todo_unique (number_to_string (id t)) (todos st1) t Hnd Ht
              (parseInt_number_to_string (id t))) as [i Hf].
  assert (i = length (todos st)) as ->.
  { apply find_todo_Some in Hf as [Hi _].
    apply (NoDup_lookup (ids st1) _ _ (id t) Hnd).
    - unfold ids. by rewrite list_lookup_fmap, Hi.
    - unfold ids. rewrite list_lookup_fmap. simpl.
      by rewrite lookup_app_r, Nat.sub_diag. }
  exists t, st1, (Store (delete (length (todos st)) (todos st1)) (nextId st1)).
  split_and!.
  - simpl. by apply post_todos_created.
  - change (delete_todo (number_to_string (id t)) st1
            = (200, PDeleted "Todo deleted successfully" t,
               Store (delete (length (todos st)) (todos st1)) (nextId st1))).
    unfold delete_todo. by rewrite Hf.
  - simpl. by rewrite delete_middle, app_nil_r.
  - done.
Qed.

Lemma X11_witness :
  get_prop (json_title "Again") (lit "title") = Some (VStr (lit "Again"))
  ∧ trim (lit "Again") ≠ []
  ∧ ∃ t st1 st2,
    handle (POST_todos (json_title "Again")) env0 (run two_posts init).2
    = (201, PTodo t, st1)
    ∧ handle (DELETE_todo (number_to_string (id t))) envA st1
      = (200, PDeleted "Todo deleted successfully" t, st2)
    ∧ todos st2 = todos (run two_posts init).2
    ∧ nextId st2 = nextId (run two_posts init).2 + 1.
Proof.
  assert (trim (lit "Again") ≠ []) as H2 by (vm_compute; discriminate).
  split; [reflexivity|]. split; [exact H2|].
  exact (X11_post_then_delete two_posts (json_title "Again") env0 envA
           (lit "Again") eq_refl H2).
Defined.

(** ** What a record keeps for its lifetime *)

Section Identity.

Implicit Types (st : store) (t : todo).

Lemma handle_identity rt e st t' :
  t' ∈ todos (handle rt e st).2 →
  id t' = nextId st ∨ ∃ t, t ∈ todos st ∧ id t = id t' ∧ createdAt t = createdAt t'.
Proof.
  destruct rt as [| | |seg|b|seg b|seg|]; simpl; try (right; by exists t').
  - unfold get_todo. destruct (find_todo seg (todos st)) as [[i t]|];
      right; by exists t'.
  - unfold post_todos. destruct (get_prop b (lit "title")) as [v|];
      [|right; by exists t'].
    destruct (negb (to_boolean v)); [right; by exists t'|].
    destruct v as [|?|?|s|?|?]; try (right; by exists t').
    destruct (trim s); [right; by exists t'|]. simpl.
    intros [Hin| ->%list_elem_of_singleton]%elem_of_app; [right; by exists t'|by left].
  - unfold put_todo. destruct (find_todo seg (todos st)) as [[i t]|] eqn:Hf;
      [|right; by exists t'].
    apply find_todo_Some in Hf as [Hi _]. simpl.
    intros [j Hj]%list_elem_of_lookup. right.
    apply list_lookup_insert_Some in Hj as [(-> & <- & _)|[_ Hj]].
    + exists t. split; [by eapply list_elem_of_lookup_2|done].
    + exists t'. split; [by eapply list_elem_of_lookup_2|done].
  - unfold delete_todo. destruct (find_todo seg (todos st)) as [[i t]|];
      [|right; by exists t'].
    simpl. intros Hin%list_elem_of_delete_inv. right. by exists t'.
Qed.

Lemma handle_nextId_mono rt e st : nextId st ≤ nextId (handle rt e st).2.
Proof.
  destruct rt as [| | |seg|b|seg b|seg|]; simpl; try done;
    repeat first
      [ progress unfold get_todo, post_todos, put_todo, delete_todo
      | case_match ];
    simpl; lia.
Qed.

Lemma app_identity rq e st t' :
  t' ∈ todos (app rq e st).2 →
  id t' = nextId st ∨ ∃ t, t ∈ todos st ∧ id t = id t' ∧ createdAt t = createdAt t'.
Proof.
  rewrite (proj2 (app_status_store rq e st)).
  destruct (body_rejected rq); [right; by exists t'|apply handle_identity].
Qed.

Lemma app_nextId_mono rq e st : nextId st ≤ nextId (app rq e st).2.
Proof.
  rewrite (proj2 (app_status_store rq e st)).
  destruct (body_rejected rq); [done|apply handle_nextId_mono].
Qed.

End Identity.

(** X12.  Whatever requests are served, a record keeps its id and its
    [createdAt]: a record found later with an id below the present counter
    comes from a record of the present store that has this id and this
    [createdAt]; and the counter never goes down. *)
Theorem X12_identity_kept (tr : list (request * env)) (st : store) (t' : todo) :
  t' ∈ todos (run tr st).2 → id t' < nextId st →
  nextId st ≤ nextId (run tr st).2
  ∧ ∃ t, t ∈ todos st ∧ id t = id t' ∧ createdAt t = createdAt t'.
Proof.
  revert st. induction tr as [|[rq e] tr IH]; intros st Hin Hlt; simpl in *.
  - split; [done|]. by exists t'.
  - pose proof (app_nextId_mono rq e st) as Hmono.
    pose proof (app_identity rq e st) as Hstep.
    destruct (app rq e st) as [r st1]. simpl in *.
    specialize (IH st1).
    destruct (run tr st1) as [rs st2]. simpl in *.
    destruct IH as (Hle & t1 & Ht1 & Hid1 & Hc1); [done|lia|].
    split; [lia|].
    destruct (Hstep t1 Ht1) as [Hnew|(t & Ht & Hid & Hc)]; [lia|].
    exists t. split_and!; [done|congruence|congruence].
Qed.

Lemma X12_witness :
  Todo 1 (VStr (lit "Buy milk")) (VBool true) (isoString env0)
    ∈ todos (run [(plain (PUT_todo (lit "1") (json_completed true)), envA);
                  (plain (DELETE_todo (lit "2")), envA); post "Again"] store2).2
  ∧ id (Todo 1 (VStr (lit "Buy milk")) (VBool true) (isoString env0)) < nextId store2
  ∧ nextId store2
    ≤ nextId (run [(plain (PUT_todo (lit "1") (json_completed true)), envA);
                   (plain (DELETE_todo (lit "2")), envA); post "Again"] store2).2
  ∧ ∃ t, t ∈ todos store2
         ∧ id t = id (Todo 1 (VStr (lit "Buy milk")) (VBool true) (isoString env0))
         ∧ createdAt t
           = createdAt (Todo 1 (VStr (lit "Buy milk")) (VBool true) (isoString env0)).
Proof.
  assert (Todo 1 (VStr (lit "Buy milk")) (VBool true) (isoString env0)
            ∈ todos (run [(plain (PUT_todo (lit "1") (json_completed true)), envA);
                          (plain (DELETE_todo (lit "2")), envA); post "Again"]
                         store2).2) as H1 by (vm_compute; left).
  assert (id (Todo 1 (VStr (lit "Buy milk")) (VBool true) (isoString env0))
          < nextId store2) as H2 by (vm_compute; reflexivity).
  split; [exact H1|]. split; [exact H2|].
  exact (X12_identity_kept _ store2 _ H1 H2).
Defined.

(** ** The title that a creation stores *)

Section Trimmed.

Implicit Types (s w u : jsstring).

Lemma trim_start_split s : ∃ w, s = w ++ trim_start s ∧ blank w = true.
Proof.
  induction s as [|c s (w & IH & Hw)]; [by exists []|]. simpl.
  destruct (is_white_space c) eqn:Hc; [|by exists []].
  exists (c :: w). simpl. rewrite Hc, Hw. split; [by f_equal|done].
Qed.

Lemma trim_start_head s c : head (trim_start s) = Some c → is_white_space c = false.
Proof.
  induction s as [|c' s IH]; [done|]. simpl.
  destruct (is_white_space c') eqn:Hc; [done|]. simpl. by intros [= <-].
Qed.

Lemma trim_end_split s : ∃ w, s = trim_end s ++ w ∧ blank w = true.
Proof.
  destruct (trim_start_split (reverse s)) as (w & Hs & Hw).
  exists (reverse w). split; [|by rewrite blank_reverse].
  unfold trim_end. rewrite <- reverse_app, <- Hs. by rewrite reverse_involutive.
Qed.

Lemma trim_end_last s c : last (trim_end s) = Some c → is_white_space c = false.
Proof. unfold trim_end. rewrite last_reverse. apply trim_start_head. Qed.

(** [s.trim()] is [s] without the white space at its two ends. *)
Lemma trim_split s :
  ∃ w1 w2, s = w1 ++ trim s ++ w2 ∧ blank w1 = true ∧ blank w2 = true
    ∧ (∀ c, head (trim s) = Some c → is_white_space c = false)
    ∧ (∀ c, last (trim s) = Some c → is_white_space c = false).
Proof.
  destruct (trim_start_split s) as (w1 & Hs & Hw1).
  destruct (trim_end_split (trim_start s)) as (w2 & Hu & Hw2).
  exists w1, w2. fold (trim s) in Hu. split_and!; [congruence|done|done| |].
  - intros c Hc. apply (trim_start_head s). rewrite Hu.
    by destruct (trim s).
  - intros c. apply trim_end_last.
Qed.

End Trimmed.

(** X13.  The title of a record that POST creates is the title of the body
    with the white space at its two ends taken off and nothing else: it is
    not empty, and neither its first nor its last code unit is white
    space. *)
Theorem X13_created_title_is_trimmed (body : value) (e : env) (st st1 : store)
    (t : todo) :
  handle (POST_todos body) e st = (201, PTodo t, st1) →
  ∃ s u w1 w2,
    get_prop body (lit "title") = Some (VStr s)
    ∧ title t = VStr u
    ∧ s = w1 ++ u ++ w2 ∧ blank w1 = true ∧ blank w2 = true
    ∧ (∃ c, head u = Some c ∧ is_white_space c = false)
    ∧ (∃ c, last u = Some c ∧ is_white_space c = false).
Proof.
  simpl. unfold post_todos.
  destruct (get_prop body (lit "title")) as [v|]; [|done].
  destruct (negb (to_boolean v)); [done|].
  destruct v as [|?|?|s|?|?]; try done.
  destruct (trim s) as [|c u] eqn:Ht; [done|]. intros [= <- _].
  destruct (trim_split s) as (w1 & w2 & Hs & Hw1 & Hw2 & Hhd & Hlast).
  rewrite Ht in Hs, Hhd, Hlast.
  exists s, (c :: u), w1, w2. split_and!; try done.
  - exists c. split; [done|]. by apply Hhd.
  - destruct (last (c :: u)) as [c'|] eqn:Hl.
    + exists c'. split; [done|]. by apply Hlast.
    + by apply last_None in Hl.
Qed.

Lemma X13_witness :
  handle (POST_todos (json_title "  Trimmed  ")) env0 (run [post "Buy milk"] init).2
  = (201, PTodo trimmed, store2)
  ∧ ∃ s u w1 w2,
    get_prop (json_title "  Trimmed  ") (lit "title") = Some (VStr s)
    ∧ title trimmed = VStr u
    ∧ s = w1 ++ u ++ w2 ∧ blank w1 = true ∧ blank w2 = true
    ∧ (∃ c, head u = Some c ∧ is_white_space c = false)
    ∧ (∃ c, last u = Some c ∧ is_white_space c = false).
Proof.
  split; [reflexivity|].
  apply (X13_created_title_is_trimmed (json_title "  Trimmed  ") env0
           (run [post "Buy milk"] init).2 store2 trimmed).
  reflexivity.
Defined.

(** ** The correlation header, again *)

Lemma random_suffix_alnum e :
  Forall (λ c, (48 ≤ c ≤ 57 ∨ 97 ≤ c ≤ 122)%N) (random_suffix e).
Proof.
  unfold random_suffix, substr, random_to_string36.
  destruct (random e) as [|n ds]; [constructor|].
  change (Forall (λ c, (48 ≤ c ≤ 57 ∨ 97 ≤ c ≤ 122)%N)
            (take 9 (digit36 <$> n :: ds))).
  apply Forall_take, Forall_fmap, Forall_forall. intros m _. simpl.
  unfold digit36. pose proof (Nat.mod_upper_bound m 36).
  destruct (m `mod` 36 <? 10)%nat eqn:Hm.
  - apply Nat.ltb_lt in Hm. lia.
  - apply Nat.ltb_ge in Hm. lia.
Qed.

Lemma random_suffix_length e :
  length (random_suffix e) = (length (random e) `min` 9)%nat.
Proof.
  unfold random_suffix, substr, random_to_string36.
  destruct (random e) as [|n ds]; [done|].
  change (length (take 9 (digit36 <$> n :: ds)) = (length (n :: ds) `min` 9)%nat).
  rewrite length_take, length_fmap. lia.
Qed.

(** X14.  Every request that reaches the correlation middleware gets a
    response with an X-Correlation-ID that is not empty, whatever the
    route and the status: the inbound value when there is one and it is
    not empty, the generated id when the header is missing or empty. *)
Theorem X14_header_always_set (rq : request) (e : env) (st : store) :
  body_rejected rq = false →
  ∃ h, correlation_header (app rq e st).1 = Some h ∧ h ≠ []
    ∧ (∀ x, x_correlation_id rq = Some x → x ≠ [] → h = x)
    ∧ (x_correlation_id rq = None ∨ x_correlation_id rq = Some [] →
       h = generated_id e).
Proof.
  intros Hb. exists (correlationId rq e).
  split; [by apply app_correlation_header|].
  unfold correlationId. destruct (x_correlation_id rq) as [[|c x]|].
  - split_and!; [apply generated_id_nonempty|by intros ? [= <-]|done].
  - split_and!; [done|by intros ? [= <-]|by intros [|]].
  - split_and!; [apply generated_id_nonempty|done|done].
Qed.

Lemma X14_witness :
  body_rejected (with_header "" (GET_todo (lit "99999"))) = false
  ∧ ∃ h, correlation_header (app (with_header "" (GET_todo (lit "99999"))) env0 store2).1
         = Some h ∧ h ≠ []
    ∧ (∀ x, x_correlation_id (with_header "" (GET_todo (lit "99999"))) = Some x →
            x ≠ [] → h = x)
    ∧ (x_correlation_id (with_header "" (GET_todo (lit "99999"))) = None
       ∨ x_correlation_id (with_header "" (GET_todo (lit "99999"))) = Some [] →
       h = generated_id env0).
Proof.
  split; [reflexivity|].
  apply (X14_header_always_set (with_header "" (GET_todo (lit "99999"))) env0 store2).
  reflexivity.
Defined.

(** X15.  The generated correlation id is the clock reading in decimal, a
    dash, and the first base-36 digits of the random draw: at most nine
    code units among 0-9 and a-z, none at all when the draw is 0. *)
Theorem X15_generated_id_format (e : env) :
  ∃ suffix,
    generated_id e = number_to_string (now e) ++ 45%N :: suffix
    ∧ length suffix = (length (random e) `min` 9)%nat
    ∧ Forall (λ c, (48 ≤ c ≤ 57 ∨ 97 ≤ c ≤ 122)%N) suffix.
Proof.
  exists (random_suffix e).
  split_and!; [done|apply random_suffix_length|apply random_suffix_alnum].
Qed.
